(** * The credential-refresh daemon of [utils/check_cookies.py]

    A shallow embedding of the module and the proofs of its specified
    properties.  The module keeps a pool of accounts alive: a scheduler fires
    a batch pass, every account of the pass is refreshed against an external
    service, and the verdict is applied to the account's [enable] flag and
    mirrored into a Redis cache.

    Layout: the JSON fragment used for the credential blob, the account
    record and the world the code runs in, a state-and-exception monad, the
    functions of the module in source order, and then the theorems. *)

From Stdlib Require Import ZArith List String Ascii Bool Lia.
From Stdlib Require Import DecimalString DecimalZ DecimalN DecimalPos.
From stdpp Require Import gmap.
Import ListNotations.

Local Open Scope Z_scope.

(** ** Python's [json] module, on the fragment the daemon uses

    Values are [None], booleans, integers, strings, lists and dicts with
    string keys (insertion ordered).  Characters are bytes read as the code
    points 0..255.  Floating-point literals, the literals [NaN] and
    [Infinity], and [\u] escapes above 255 are outside this fragment:
    [loads] answers [None] on them. *)
Module PyJson.

#[local] Set Warnings "-register-all".

Inductive json : Type :=
| JNull
| JBool (b : bool)
| JNum (z : Z)
| JStr (s : string)
| JArr (items : list json)
| JObj (members : list (string * json)).

(** Python truthiness ([bool(v)]): [None], [False], [0], the empty string,
    the empty list and the empty dict are falsy. *)
Definition truthy (v : json) : bool :=
  match v with
  | JNull => false
  | JBool b => b
  | JNum z => negb (z =? 0)
  | JStr s => negb (String.eqb s EmptyString)
  | JArr items => match items with [] => false | _ :: _ => true end
  | JObj members => match members with [] => false | _ :: _ => true end
  end.

(** [d[k] = v] on an insertion-ordered dict: an existing key keeps its
    place and takes the new value, a new key goes last. *)
Fixpoint dict_set (d : list (string * json)) (k : string) (v : json)
  : list (string * json) :=
  match d with
  | [] => [(k, v)]
  | (k', v') :: d' =>
      if String.eqb k' k then (k', v) :: d' else (k', v') :: dict_set d' k v
  end.

Fixpoint dict_lookup (d : list (string * json)) (k : string) : option json :=
  match d with
  | [] => None
  | (k', v') :: d' => if String.eqb k' k then Some v' else dict_lookup d' k
  end.

Definition dquote : ascii := ascii_of_nat 34.
Definition backslash : ascii := ascii_of_nat 92.

(** *** [json.dumps] *)

Definition hex_digit (n : N) : ascii :=
  if (n <? 10)%N then ascii_of_N (48 + n) else ascii_of_N (87 + n).

(** [\u00xy] for the code point of [c]. *)
Definition escape_u (c : ascii) : string :=
  let n := N_of_ascii c in
  String backslash (String "u" (String "0" (String "0"
    (String (hex_digit (n / 16)) (String (hex_digit (n mod 16)) EmptyString))))).

Definition escape_char (ensure_ascii : bool) (c : ascii) : string :=
  let n := N_of_ascii c in
  if Ascii.eqb c dquote then String backslash (String dquote EmptyString)
  else if Ascii.eqb c backslash then String backslash (String backslash EmptyString)
  else if (n =? 10)%N then String backslash (String "n" EmptyString)
  else if (n =? 13)%N then String backslash (String "r" EmptyString)
  else if (n =? 9)%N then String backslash (String "t" EmptyString)
  else if (n =? 8)%N then String backslash (String "b" EmptyString)
  else if (n =? 12)%N then String backslash (String "f" EmptyString)
  else if (n <? 32)%N then escape_u c
  else if ensure_ascii && (126 <? n)%N then escape_u c
  else String c EmptyString.

Fixpoint escape_string (ensure_ascii : bool) (s : string) : string :=
  match s with
  | EmptyString => EmptyString
  | String c s' => String.append (escape_char ensure_ascii c) (escape_string ensure_ascii s')
  end.

Definition quote (ensure_ascii : bool) (s : string) : string :=
  String dquote (String.append (escape_string ensure_ascii s) (String dquote EmptyString)).

Definition dumps_int (z : Z) : string := NilZero.string_of_int (Z.to_int z).

(** The default separators are [", "] and [": "]. *)
Fixpoint dumps_with (ensure_ascii : bool) (v : json) : string :=
  match v with
  | JNull => "null"
  | JBool true => "true"
  | JBool false => "false"
  | JNum z => dumps_int z
  | JStr s => quote ensure_ascii s
  | JArr items =>
      String "[" (String.append
        ((fix dumps_items (l : list json) : string :=
            match l with
            | [] => EmptyString
            | [x] => dumps_with ensure_ascii x
            | x :: l' =>
                String.append (dumps_with ensure_ascii x)
                  (String "," (String " " (dumps_items l')))
            end) items)
        "]")
  | JObj members =>
      String "{" (String.append
        ((fix dumps_members (l : list (string * json)) : string :=
            match l with
            | [] => EmptyString
            | [(k, x)] =>
                String.append (quote ensure_ascii k)
                  (String ":" (String " " (dumps_with ensure_ascii x)))
            | (k, x) :: l' =>
                String.append (quote ensure_ascii k)
                  (String ":" (String " "
                     (String.append (dumps_with ensure_ascii x)
                        (String "," (String " " (dumps_members l'))))))
            end) members)
        "}")
  end.

(** [json.dumps(v)]: [ensure_ascii] defaults to [True]. *)
Definition dumps (v : json) : string := dumps_with true v.

(** *** [json.loads] *)

Definition is_ws (c : ascii) : bool :=
  let n := N_of_ascii c in
  (n =? 32)%N || (n =? 9)%N || (n =? 10)%N || (n =? 13)%N.

Fixpoint skip_ws (s : string) : string :=
  match s with
  | EmptyString => EmptyString
  | String c s' => if is_ws c then skip_ws s' else s
  end.

Fixpoint strip_prefix (p s : string) : option string :=
  match p with
  | EmptyString => Some s
  | String c p' =>
      match s with
      | EmptyString => None
      | String d s' => if Ascii.eqb c d then strip_prefix p' s' else None
      end
  end.

Definition hex_value (c : ascii) : option N :=
  let n := N_of_ascii c in
  if (48 <=? n)%N && (n <=? 57)%N then Some (n - 48)%N
  else if (97 <=? n)%N && (n <=? 102)%N then Some (n - 87)%N
  else if (65 <=? n)%N && (n <=? 70)%N then Some (n - 55)%N
  else None.

Definition hex4 (a b c d : ascii) : option N :=
  match hex_value a, hex_value b, hex_value c, hex_value d with
  | Some x, Some y, Some z, Some w => Some (((x * 16 + y) * 16 + z) * 16 + w)%N
  | _, _, _, _ => None
  end.

(** The one-letter escapes of a JSON string. *)
Definition unescape (e : ascii) : option ascii :=
  let n := N_of_ascii e in
  if Ascii.eqb e dquote then Some dquote
  else if Ascii.eqb e backslash then Some backslash
  else if (n =? 47)%N then Some (ascii_of_N 47)
  else if (n =? 98)%N then Some (ascii_of_N 8)
  else if (n =? 102)%N then Some (ascii_of_N 12)
  else if (n =? 110)%N then Some (ascii_of_N 10)
  else if (n =? 114)%N then Some (ascii_of_N 13)
  else if (n =? 116)%N then Some (ascii_of_N 9)
  else None.

Definition cons_char (c : ascii) (r : option (string * string))
  : option (string * string) :=
  match r with
  | Some (s, rest) => Some (String c s, rest)
  | None => None
  end.

(** The body of a string literal, after its opening quote (strict mode:
    a raw control character is an error). *)
Fixpoint scan_string (s : string) : option (string * string) :=
  match s with
  | EmptyString => None
  | String c r =>
      if Ascii.eqb c dquote then Some (EmptyString, r)
      else if Ascii.eqb c backslash then
        match r with
        | EmptyString => None
        | String e r' =>
            if (N_of_ascii e =? 117)%N then
              match r' with
              | String h1 (String h2 (String h3 (String h4 r''))) =>
                  match hex4 h1 h2 h3 h4 with
                  | Some n =>
                      if (n <? 256)%N then cons_char (ascii_of_N n) (scan_string r'')
                      else None
                  | None => None
                  end
              | _ => None
              end
            else
              match unescape e with
              | Some c' => cons_char c' (scan_string r')
              | None => None
              end
        end
      else if (N_of_ascii c <? 32)%N then None
      else cons_char c (scan_string r)
  end.

Definition digit_of (c : ascii) : option (Decimal.uint -> Decimal.uint) :=
  match N_of_ascii c with
  | 48%N => Some Decimal.D0 | 49%N => Some Decimal.D1 | 50%N => Some Decimal.D2
  | 51%N => Some Decimal.D3 | 52%N => Some Decimal.D4 | 53%N => Some Decimal.D5
  | 54%N => Some Decimal.D6 | 55%N => Some Decimal.D7 | 56%N => Some Decimal.D8
  | 57%N => Some Decimal.D9
  | _ => None
  end.

Fixpoint scan_digits (s : string) : Decimal.uint * string :=
  match s with
  | EmptyString => (Decimal.Nil, EmptyString)
  | String c r =>
      match digit_of c with
      | Some d => let (u, rest) := scan_digits r in (d u, rest)
      | None => (Decimal.Nil, s)
      end
  end.

(** A fraction or an exponent makes the literal a float. *)
Definition starts_float (s : string) : bool :=
  match s with
  | String c _ =>
      let n := N_of_ascii c in (n =? 46)%N || (n =? 101)%N || (n =? 69)%N
  | EmptyString => false
  end.

(** The digits of an integer literal: [0] or a nonzero digit and more
    digits, which is the canonical decimal form of the number read. *)
Definition scan_nat (s : string) : option (N * string) :=
  let (u, rest) := scan_digits s in
  let n := N.of_uint u in
  if Decimal.uint_beq u (N.to_uint n) && negb (starts_float rest)
  then Some (n, rest) else None.

Definition scan_int (s : string) : option (Z * string) :=
  match s with
  | EmptyString => None
  | String c r =>
      if Ascii.eqb c "-" then
        match scan_nat r with
        | Some (n, rest) => Some (- Z.of_N n, rest)
        | None => None
        end
      else
        match scan_nat s with
        | Some (n, rest) => Some (Z.of_N n, rest)
        | None => None
        end
  end.

Definition lit (p : string) (v : json) (s : string) : option (json * string) :=
  match strip_prefix p s with
  | Some rest => Some (v, rest)
  | None => None
  end.

(** Recursive descent; [fuel] bounds the nesting and the number of items. *)
Fixpoint parse_value (fuel : nat) (s : string) : option (json * string) :=
  match fuel with
  | O => None
  | S n =>
      match s with
      | EmptyString => None
      | String c r =>
          if Ascii.eqb c dquote then
            match scan_string r with
            | Some (x, rest) => Some (JStr x, rest)
            | None => None
            end
          else if Ascii.eqb c "[" then
            match skip_ws r with
            | EmptyString => None
            | String c' rest =>
                if Ascii.eqb c' "]" then Some (JArr [], rest)
                else parse_items n [] (String c' rest)
            end
          else if Ascii.eqb c "{" then
            match skip_ws r with
            | EmptyString => None
            | String c' rest =>
                if Ascii.eqb c' "}" then Some (JObj [], rest)
                else parse_members n [] (String c' rest)
            end
          else if Ascii.eqb c "n" then lit "null" JNull s
          else if Ascii.eqb c "t" then lit "true" (JBool true) s
          else if Ascii.eqb c "f" then lit "false" (JBool false) s
          else
            match scan_int s with
            | Some (z, rest) => Some (JNum z, rest)
            | None => None
            end
      end
  end
with parse_items (fuel : nat) (acc : list json) (s : string)
  : option (json * string) :=
  match fuel with
  | O => None
  | S n =>
      match parse_value n s with
      | Some (v, rest) =>
          match skip_ws rest with
          | EmptyString => None
          | String c rest' =>
              if Ascii.eqb c "," then parse_items n (acc ++ [v]) (skip_ws rest')
              else if Ascii.eqb c "]" then Some (JArr (acc ++ [v]), rest')
              else None
          end
      | None => None
      end
  end
with parse_members (fuel : nat) (acc : list (string * json)) (s : string)
  : option (json * string) :=
  match fuel with
  | O => None
  | S n =>
      match s with
      | EmptyString => None
      | String c r =>
          if Ascii.eqb c dquote then
            match scan_string r with
            | Some (k, rest) =>
                match skip_ws rest with
                | EmptyString => None
                | String c1 rest1 =>
                    if Ascii.eqb c1 ":" then
                      match parse_value n (skip_ws rest1) with
                      | Some (v, rest2) =>
                          match skip_ws rest2 with
                          | EmptyString => None
                          | String c3 rest3 =>
                              if Ascii.eqb c3 "," then
                                parse_members n (dict_set acc k v) (skip_ws rest3)
                              else if Ascii.eqb c3 "}" then
                                Some (JObj (dict_set acc k v), rest3)
                              else None
                          end
                      | None => None
                      end
                    else None
                end
            | None => None
            end
          else None
      end
  end.

(** [json.loads(s)]; [None] stands for [JSONDecodeError]. *)
Definition loads (s : string) : option json :=
  match parse_value (S (String.length s)) (skip_ws s) with
  | Some (v, rest) =>
      match skip_ws rest with
      | EmptyString => Some v
      | String _ _ => None
      end
  | None => None
  end.

End PyJson.

Export PyJson.

(** ** The account record and the world

    [Token] is the ORM row of [models.tokens]; only the columns the module
    touches are kept.  Timestamps are seconds on the clock's scale.  The
    attributes the module assigns from a collaborator's answer
    ([access_token], [token], [account_type]) hold whatever Python value was
    returned, so they are [json] values, [JNull] standing for [None]. *)
Record Token : Type := mkToken {
  id : Z;
  account : string;
  enable : bool;
  silent_cookies : option string;
  access_token : json;
  token : json;
  auth : option string;
  account_type : json;
  cookies_expires : option Z;
  token_expires : option Z;
  count : Z;
  updated_at : option Z;
  deleted_at : option Z
}.

Definition set_enable (v : bool) (a : Token) : Token :=
  mkToken (id a) (account a) v (silent_cookies a) (access_token a) (token a)
    (auth a) (account_type a) (cookies_expires a) (token_expires a) (count a)
    (updated_at a) (deleted_at a).
Definition set_silent_cookies (v : option string) (a : Token) : Token :=
  mkToken (id a) (account a) (enable a) v (access_token a) (token a)
    (auth a) (account_type a) (cookies_expires a) (token_expires a) (count a)
    (updated_at a) (deleted_at a).
Definition set_access_token (v : json) (a : Token) : Token :=
  mkToken (id a) (account a) (enable a) (silent_cookies a) v (token a)
    (auth a) (account_type a) (cookies_expires a) (token_expires a) (count a)
    (updated_at a) (deleted_at a).
Definition set_token (v : json) (a : Token) : Token :=
  mkToken (id a) (account a) (enable a) (silent_cookies a) (access_token a) v
    (auth a) (account_type a) (cookies_expires a) (token_expires a) (count a)
    (updated_at a) (deleted_at a).
Definition set_auth (v : option string) (a : Token) : Token :=
  mkToken (id a) (account a) (enable a) (silent_cookies a) (access_token a)
    (token a) v (account_type a) (cookies_expires a) (token_expires a) (count a)
    (updated_at a) (deleted_at a).
Definition set_account_type (v : json) (a : Token) : Token :=
  mkToken (id a) (account a) (enable a) (silent_cookies a) (access_token a)
    (token a) (auth a) v (cookies_expires a) (token_expires a) (count a)
    (updated_at a) (deleted_at a).
Definition set_cookies_expires (v : option Z) (a : Token) : Token :=
  mkToken (id a) (account a) (enable a) (silent_cookies a) (access_token a)
    (token a) (auth a) (account_type a) v (token_expires a) (count a)
    (updated_at a) (deleted_at a).
Definition set_token_expires (v : option Z) (a : Token) : Token :=
  mkToken (id a) (account a) (enable a) (silent_cookies a) (access_token a)
    (token a) (auth a) (account_type a) (cookies_expires a) v (count a)
    (updated_at a) (deleted_at a).
Definition set_count (v : Z) (a : Token) : Token :=
  mkToken (id a) (account a) (enable a) (silent_cookies a) (access_token a)
    (token a) (auth a) (account_type a) (cookies_expires a) (token_expires a) v
    (updated_at a) (deleted_at a).
Definition set_updated_at (v : option Z) (a : Token) : Token :=
  mkToken (id a) (account a) (enable a) (silent_cookies a) (access_token a)
    (token a) (auth a) (account_type a) (cookies_expires a) (token_expires a)
    (count a) v (deleted_at a).

(** What a call either gives back or raises.  Every exception of the model
    is an instance of Python's [Exception], the class the handlers catch. *)
Inductive outcome (A : Type) : Type :=
| Returns (a : A)
| Raises (e : string).
Arguments Returns {A} a.
Arguments Raises {A} e.

Inductive level : Type := LInfo | LWarning | LError | LException.

(** The filters the module hands to [db.query(Token)]. *)
Inductive query : Type :=
| QExpiring (now expiry_date : Z)
| QLive
| QEnabledLive
| QById (account_id : Z).

(** What the module does to its collaborators, in order. *)
Inductive event : Type :=
| EQuery (q : query)
| ECommit (flushed : list Token)
| ERefresh (cookies : json)
| ESignin (access_token : json)
| EFetchAuth (token access_token : json)
| EProbe
| ECachePut (account_id : Z) (data : json) (is_paid : bool)
| ECacheRemove (account_id : Z) (is_paid : bool)
| ELog (lvl : level).

(** The state outside the running function: the committed rows in table
    order, the two partitions of the Redis mirror, the calls made so far,
    the number of answers already taken from the collaborators, and the
    module global [_running]. *)
Record world : Type := mkWorld {
  store : list Token;
  cache_free : gmap Z json;
  cache_paid : gmap Z json;
  trace : list event;
  ticks : nat;
  _running : bool
}.

Definition with_store (s : list Token) (w : world) : world :=
  mkWorld s (cache_free w) (cache_paid w) (trace w) (ticks w) (_running w).
Definition with_cache_free (c : gmap Z json) (w : world) : world :=
  mkWorld (store w) c (cache_paid w) (trace w) (ticks w) (_running w).
Definition with_cache_paid (c : gmap Z json) (w : world) : world :=
  mkWorld (store w) (cache_free w) c (trace w) (ticks w) (_running w).
Definition with_trace (t : list event) (w : world) : world :=
  mkWorld (store w) (cache_free w) (cache_paid w) t (ticks w) (_running w).
Definition with_ticks (n : nat) (w : world) : world :=
  mkWorld (store w) (cache_free w) (cache_paid w) (trace w) n (_running w).
Definition with_running (b : bool) (w : world) : world :=
  mkWorld (store w) (cache_free w) (cache_paid w) (trace w) (ticks w) b.

Inductive job : Type := BatchJob | ResetJob.

(** One turn of the scheduler loop as the outside decides it: the jobs
    [schedule.run_pending()] finds due, whether another thread calls
    [stop_scheduler] during the turn, and whether the turn raises. *)
Record poll : Type := mkPoll {
  due : list job;
  stop_requested : bool;
  poll_raises : option string
}.

(** The collaborators.  An answer may depend on the arguments and on how
    many answers were taken before it ([nat]): the network, Redis and the
    clock owe the module nothing more. *)
Record Env : Type := mkEnv {
  datetime_now : nat -> Z;
  refresh_silent_cookies : nat -> json -> outcome (bool * json * json);
  signin_with_access_token : nat -> json -> outcome json;
  fetch_auth_info : nat -> json -> json -> outcome json;
  test_redis_connection : nat -> outcome bool;
  token_to_dict : Token -> outcome json;
  cache_account : nat -> Z -> json -> bool -> outcome unit;
  remove_cached_account : nat -> Z -> bool -> outcome unit;
  schedule_every : outcome unit;
  schedule_run_pending : nat -> poll
}.

(** ** State and exceptions

    A function that works on one account runs in a [frame]: the world and
    the in-memory object [account] of the session.  An exception leaves the
    frame as it was when raised, so an attribute assigned before the raise
    stays assigned. *)
Record frame : Type := mkFrame { wld : world; self : Token }.

Definition M (A : Type) : Type := frame -> outcome A * frame.

Definition ret {A : Type} (a : A) : M A := fun f => (Returns a, f).

Definition bind {A B : Type} (m : M A) (k : A -> M B) : M B :=
  fun f =>
    match m f with
    | (Returns a, f') => k a f'
    | (Raises e, f') => (Raises e, f')
    end.

Definition lift {A : Type} (o : outcome A) : M A := fun f => (o, f).

(** [try: m  except Exception as e: h e] *)
Definition try_except {A : Type} (m : M A) (h : string -> M A) : M A :=
  fun f =>
    match m f with
    | (Returns a, f') => (Returns a, f')
    | (Raises e, f') => h e f'
    end.

Declare Scope py_scope.
Delimit Scope py_scope with py.
Notation "x <- m ;; k" := (bind m (fun x => k))
  (at level 100, m at next level, right associativity) : py_scope.
Notation "m ;; k" := (bind m (fun _ => k))
  (at level 100, right associativity) : py_scope.
Local Open Scope py_scope.

Definition record (e : event) (w : world) : world :=
  with_trace (trace w ++ [e]) w.

Definition get_self : M Token := fun f => (Returns (self f), f).

(** [account.x = v] *)
Definition assign (upd : Token -> Token) : M unit :=
  fun f => (Returns tt, mkFrame (wld f) (upd (self f))).

Definition on_world (g : world -> world) : M unit :=
  fun f => (Returns tt, mkFrame (g (wld f)) (self f)).

Definition emit (e : event) : M unit := on_world (record e).

Definition logger (lvl : level) : M unit := emit (ELog lvl).

(** Take the next answer of a collaborator. *)
Definition ask {A : Type} (answer : nat -> outcome A) : M A :=
  fun f =>
    (answer (ticks (wld f)),
     mkFrame (with_ticks (S (ticks (wld f))) (wld f)) (self f)).

(** [UPDATE ... WHERE id = a.id] *)
Definition store_write (a : Token) (rows : list Token) : list Token :=
  map (fun r => if id r =? id a then a else r) rows.

(** [db.commit()] in a session that holds the one object [account]. *)
Definition db_commit : M unit :=
  fun f =>
    (Returns tt,
     mkFrame (record (ECommit [self f])
                (with_store (store_write (self f) (store (wld f))) (wld f)))
             (self f)).

Definition is_live (a : Token) : bool :=
  match deleted_at a with None => true | Some _ => false end.

(** [v == s] for a string [s] *)
Definition py_eq_str (v : json) (s : string) : bool :=
  match v with JStr x => String.eqb x s | _ => false end.

(** [v.get(k, None)]: only a dict has the method. *)
Definition py_get (v : json) (k : string) : M json :=
  match v with
  | JObj d =>
      match dict_lookup d k with
      | Some x => ret x
      | None => ret JNull
      end
  | _ => lift (Raises "AttributeError")
  end.

Definition timedelta_days (n : Z) : Z := n * 86400.
Definition timedelta_minutes (n : Z) : Z := n * 60.

Definition CHECK_INTERVAL_SECONDS : Z := 600.
Definition EXPIRY_WARNING_DAYS : Z := 7.
Definition MAX_WORKER_THREADS : Z := 20.

(** ** The module *)
Section Daemon.

Variable env : Env.

Definition now : M Z := ask (fun n => Returns (datetime_now env n)).

Definition call_cache_account (account_id : Z) (data : json) (is_paid : bool)
  : M unit :=
  emit (ECachePut account_id data is_paid) ;;
  ask (fun n => cache_account env n account_id data is_paid) ;;
  on_world (fun w =>
    if is_paid then with_cache_paid (<[account_id := data]> (cache_paid w)) w
    else with_cache_free (<[account_id := data]> (cache_free w)) w).

Definition call_remove_cached_account (account_id : Z) (is_paid : bool)
  : M unit :=
  emit (ECacheRemove account_id is_paid) ;;
  ask (fun n => remove_cached_account env n account_id is_paid) ;;
  on_world (fun w =>
    if is_paid then with_cache_paid (delete account_id (cache_paid w)) w
    else with_cache_free (delete account_id (cache_free w)) w).

Definition call_test_redis_connection : M bool :=
  emit EProbe ;; ask (test_redis_connection env).

Definition in_window (now_ expiry_date : Z) (a : Token) : bool :=
  match cookies_expires a with
  | Some t => (t <=? expiry_date) && (now_ <=? t)
  | None => false
  end.

Definition find_expiring_accounts (w : world) : list Token * world :=
  let now_ := datetime_now env (ticks w) in
  let w := with_ticks (S (ticks w)) w in
  let expiry_date := now_ + timedelta_days EXPIRY_WARNING_DAYS in
  let w := record (EQuery (QExpiring now_ expiry_date)) w in
  let accounts :=
    List.filter (fun a => enable a && is_live a && in_window now_ expiry_date a)
      (store w) in
  (accounts, record (ELog LInfo) w).

Definition parse_cookies_to_dict (cookies_str : string) : M json :=
  if String.eqb cookies_str EmptyString then ret (JObj [])
  else
    match loads cookies_str with
    | Some v => ret v
    | None => logger LError ;; ret (JObj [])
    end.

(** Step 3 of [refresh_cookies]: the assignments from
    [account.silent_cookies = json.dumps(updated_cookies)] to [db.commit()]. *)
Definition commit_refresh (updated_cookies access_token_ : json) : M unit :=
  assign (set_silent_cookies (Some (dumps updated_cookies))) ;;
  assign (set_access_token access_token_) ;;
  t1 <- now ;;
  assign (set_cookies_expires (Some (t1 + timedelta_days 30))) ;;
  t2 <- now ;;
  assign (set_updated_at (Some t2)) ;;
  t3 <- now ;;
  assign (set_token_expires (Some (t3 + timedelta_minutes 15))) ;;
  t4 <- now ;;
  assign (set_updated_at (Some t4)) ;;
  assign (set_enable true) ;;
  db_commit.

(** Steps 4 and 5 of [refresh_cookies]: from the sign-in test to the last
    statement before [return True]. *)
Definition derive_identity : M unit :=
  a <- get_self ;;
  (if truthy (access_token a) && negb (truthy (token a)) then
     emit (ESignin (access_token a)) ;;
     auth0 <- ask (fun n => signin_with_access_token env n (access_token a)) ;;
     tok <- py_get auth0 "token" ;;
     assign (set_token tok)
   else ret tt) ;;
  a <- get_self ;;
  emit (EFetchAuth (token a) (access_token a)) ;;
  auth_data <- ask (fun n => fetch_auth_info env n (token a) (access_token a)) ;;
  if negb (truthy auth_data) then logger LError
  else
    assign (set_auth (Some (dumps_with false auth_data))) ;;
    ty <- py_get auth_data "account_type" ;;
    assign (set_account_type ty).

Definition refresh_cookies : M bool :=
  account_ <- get_self ;;
  match silent_cookies account_ with
  | None | Some EmptyString => logger LError ;; ret false
  | Some cookies_str =>
      cookies <- parse_cookies_to_dict cookies_str ;;
      if negb (truthy cookies) then logger LError ;; ret false
      else
        try_except
          (emit (ERefresh cookies) ;;
           r <- ask (fun n => refresh_silent_cookies env n cookies) ;;
           let '(success, updated_cookies, access_token_) := r in
           if negb success || negb (truthy updated_cookies)
              || negb (truthy access_token_)
           then ret false
           else
             commit_refresh updated_cookies access_token_ ;;
             derive_identity ;;
             ret true)
          (fun e => logger LException ;; ret false)
  end.

Definition disable_account : M unit :=
  assign (set_enable false) ;;
  db_commit ;;
  try_except
    (up <- call_test_redis_connection ;;
     if up then
       a <- get_self ;;
       call_remove_cached_account (id a) false ;;
       if py_eq_str (account_type a) "paid"
       then call_remove_cached_account (id a) true
       else ret tt
     else ret tt)
    (fun e => logger LError).

Definition enable_account : M unit :=
  assign (set_enable true) ;;
  db_commit ;;
  try_except
    (up <- call_test_redis_connection ;;
     if up then
       a <- get_self ;;
       account_data <- lift (token_to_dict env a) ;;
       call_cache_account (id a) account_data false ;;
       if py_eq_str (account_type a) "paid"
       then call_cache_account (id a) account_data true
       else ret tt
     else ret tt)
    (fun e => logger LError).

(** The session is private to the call and closed on every path; what it
    leaves behind is the world. *)
Definition refresh_single_account (account_id : Z) (w : world) : world :=
  let w := record (EQuery (QById account_id)) w in
  match find (fun a => id a =? account_id) (store w) with
  | None => record (ELog LError) w
  | Some a =>
      wld (snd (try_except
                  (success <- refresh_cookies ;;
                   if success then enable_account
                   else disable_account ;; logger LInfo)
                  (fun e => logger LException)
                  (mkFrame w a)))
  end.

(** The units of work are taken in submission order: one schedule of the
    pool, in which every unit still has its own session. *)
Definition check_and_refresh_accounts (w : world) : world :=
  let w := record (ELog LInfo) w in
  let w := record (EQuery QLive) w in
  let accounts := List.filter is_live (store w) in
  match accounts with
  | [] => record (ELog LInfo) w
  | _ :: _ =>
      let w := record (ELog LInfo) w in
      let w := fold_left (fun w a => refresh_single_account (id a) w) accounts w in
      record (ELog LInfo) w
  end.

(** The body of the [for] loop of [reset_account_counts] on one account. *)
Definition reset_one : M bool :=
  a <- get_self ;;
  if count a >? 0 then
    assign (set_count 0) ;;
    try_except
      (up <- call_test_redis_connection ;;
       if up then
         a <- get_self ;;
         account_data <- lift (token_to_dict env a) ;;
         call_cache_account (id a) account_data false ;;
         if py_eq_str (account_type a) "paid"
         then call_cache_account (id a) account_data true
         else ret tt
       else ret tt)
      (fun e => logger LError) ;;
    ret true
  else ret false.

(** The loop: the objects it has modified, or the exception that left it. *)
Fixpoint reset_loop (accounts : list Token) (w : world) (dirty : list Token)
  : outcome (list Token) * world :=
  match accounts with
  | [] => (Returns dirty, w)
  | a :: rest =>
      match reset_one (mkFrame w a) with
      | (Returns true, f) => reset_loop rest (wld f) (dirty ++ [self f])
      | (Returns false, f) => reset_loop rest (wld f) dirty
      | (Raises e, f) => (Raises e, wld f)
      end
  end.

(** One session holds every loaded account; the single [db.commit()] after
    the loop flushes the modified ones. *)
Definition reset_account_counts (w : world) : world :=
  let w := record (ELog LInfo) w in
  let w := record (EQuery QEnabledLive) w in
  let accounts := List.filter (fun a => enable a && is_live a) (store w) in
  match accounts with
  | [] => record (ELog LInfo) w
  | _ :: _ =>
      match reset_loop accounts w [] with
      | (Returns dirty, w) =>
          let w :=
            with_store
              (fold_left (fun rows a => store_write a rows) dirty (store w)) w in
          let w := record (ECommit dirty) w in
          record (ELog LInfo) w
      | (Raises e, w) => record (ELog LException) w
      end
  end.

Definition stop_scheduler (w : world) : world :=
  record (ELog LInfo) (with_running false w).

Definition run_job (j : job) (w : world) : world :=
  match j with
  | BatchJob => check_and_refresh_accounts w
  | ResetJob => reset_account_counts w
  end.

(** [while _running: schedule.run_pending(); time.sleep(60)], turn by turn.
    [None] when the loop is still running after [fuel] turns. *)
Fixpoint scheduler_loop (fuel turn : nat) (w : world)
  : option (outcome unit * world) :=
  if _running w then
    match fuel with
    | O => None
    | S fuel' =>
        let p := schedule_run_pending env turn in
        let w := fold_left (fun w j => run_job j w) (due p) w in
        let w := if stop_requested p then stop_scheduler w else w in
        match poll_raises p with
        | Some e => Some (Raises e, w)
        | None => scheduler_loop fuel' (S turn) w
        end
    end
  else Some (Returns tt, w).

Definition run_scheduler (fuel : nat) (w : world) : option world :=
  if _running w then Some (record (ELog LWarning) w)
  else
    let w := with_running true w in
    let body :=
      match schedule_every env with
      | Returns _ =>
          scheduler_loop fuel 0 (record (ELog LInfo) (record (ELog LInfo) w))
      | Raises e => Some (Raises e, w)
      end in
    match body with
    | Some (Returns _, w') => Some (with_running false w')
    | Some (Raises e, w') =>
        Some (with_running false (record (ELog LException) w'))
    | None => None
    end.

(** [if __name__ == "__main__"] *)
Definition main (fuel : nat) (w : world) : option world :=
  run_scheduler fuel (check_and_refresh_accounts (record (ELog LInfo) w)).

End Daemon.

(** ** A concrete world

    Two accounts and collaborators that answer as in the scenarios of the
    specification: the Refresh Client turns the blob [{"a": "b"}] into
    [{"a": "c"}] with the access token [tok123], Redis is up. *)
Module Scenario.

Definition snapshot (a : Token) : json :=
  JObj [("id", JNum (id a)); ("enable", JBool (enable a));
        ("count", JNum (count a))]%string.

Definition cookies_ab : json := JObj [("a", JStr "b")]%string.
Definition cookies_ac : json := JObj [("a", JStr "c")]%string.
Definition tok123 : json := JStr "tok123".

Definition env0 : Env :=
  mkEnv (fun n => 1000 + Z.of_nat n)
    (fun _ _ => Returns (true, cookies_ac, tok123))
    (fun _ _ => Returns (JObj [("token", JStr "sess1")]))%string
    (fun _ _ _ => Returns (JObj [("account_type", JStr "paid")]))%string
    (fun _ => Returns true)
    (fun a => Returns (snapshot a))
    (fun _ _ _ _ => Returns tt)
    (fun _ _ _ => Returns tt)
    (Returns tt)
    (fun _ => mkPoll [] false None).

(** The Refresh Client refuses. *)
Definition env_refused : Env :=
  mkEnv (datetime_now env0)
    (fun _ _ => Returns (false, JNull, JNull))
    (signin_with_access_token env0) (fetch_auth_info env0)
    (test_redis_connection env0) (token_to_dict env0) (cache_account env0)
    (remove_cached_account env0) (schedule_every env0)
    (schedule_run_pending env0).


(** The third turn of the scheduler loop raises. *)
Definition env_crash : Env :=
  mkEnv (datetime_now env0) (refresh_silent_cookies env0)
    (signin_with_access_token env0) (fetch_auth_info env0)
    (test_redis_connection env0) (token_to_dict env0) (cache_account env0)
    (remove_cached_account env0) (schedule_every env0)
    (fun n => if (n =? 2)%nat then mkPoll [BatchJob] false (Some "boom"%string)
              else mkPoll [] false None).

Definition alice : Token :=
  mkToken 7 "alice" false (Some (dumps cookies_ab)) JNull JNull None JNull
    None None 5 None None.

(** Soft-deleted, with the same blob. *)
Definition bob : Token :=
  mkToken 8 "bob" false (Some (dumps cookies_ab)) JNull JNull None JNull
    None None 3 None (Some 10).

(** [bob] before the soft delete. *)
Definition bob_live : Token :=
  mkToken 8 "bob" false (Some (dumps cookies_ab)) JNull JNull None JNull
    None None 3 None None.

(** Already signed in. *)
Definition carol : Token :=
  mkToken 9 "carol" true (Some (dumps cookies_ab)) (JStr "tok0") (JStr "sess0")
    None (JStr "paid") (Some 5000) (Some 2000) 5 (Some 900) None.

Definition w0 : world := mkWorld [alice; bob; carol] ∅ ∅ [] 0 false.

(** The store as a batch pass loaded it before [bob] was soft-deleted. *)
Definition w_live : world := mkWorld [alice; bob_live; carol] ∅ ∅ [] 0 false.

End Scenario.

(** ** Vocabulary of the properties *)

Definition is_cache_op (e : event) : bool :=
  match e with
  | ECachePut _ _ _ | ECacheRemove _ _ => true
  | _ => false
  end.

Definition is_commit (e : event) : bool :=
  match e with ECommit _ => true | _ => false end.

(** What both transitions do, whatever Redis answers: the flag [on] is
    assigned and committed, the commit is the first thing the outside sees,
    the probe comes next, cache calls come only after a probe that said yes,
    a probe or a first cache call that raises is followed by the error log
    and nothing else, and the result is a normal return with the committed
    row in the store. *)
Definition commits_then_mirrors
  (env : Env) (on : bool) (f : frame) (r : outcome unit * frame) : Prop :=
  let a' := set_enable on (self f) in
  exists (w' : world) (ops : list event),
    r = (Returns tt, mkFrame w' a') /\
    store w' = store_write a' (store (wld f)) /\
    trace w' = trace (wld f) ++ ECommit [a'] :: EProbe :: ops /\
    existsb is_commit ops = false /\
    _running w' = _running (wld f) /\
    (test_redis_connection env (ticks (wld f)) <> Returns true ->
       existsb is_cache_op ops = false) /\
    (forall e, test_redis_connection env (ticks (wld f)) = Raises e ->
       ops = [ELog LError]) /\
    (test_redis_connection env (ticks (wld f)) = Returns true ->
     forall e,
       (if on
        then exists d, token_to_dict env a' = Returns d /\
               cache_account env (S (ticks (wld f))) (id a') d false = Raises e
        else remove_cached_account env (S (ticks (wld f))) (id a') false = Raises e) ->
       exists op, is_cache_op op = true /\ ops = [op; ELog LError]) /\
    (forall e, In e ops -> is_cache_op e = true \/ e = ELog LError).

(** Step 1 lets the account through with the parsed credential [cookies]. *)
Definition holds_cookies (a : Token) (cookies : json) : Prop :=
  exists s : string,
    silent_cookies a = Some s /\ s <> EmptyString /\
    loads s = Some cookies /\ truthy cookies = true.

(** The world in which the Refresh Client has just answered. *)
Definition asked (cookies : json) (w : world) : world :=
  with_ticks (S (ticks w)) (record (ERefresh cookies) w).

(** The row step 3 builds from the account [a]: [n] is the index of the
    first of its four readings of the clock. *)
Definition refreshed (env : Env) (n : nat) (updated_cookies access_token_ : json)
  (a : Token) : Token :=
  mkToken (id a) (account a) true (Some (dumps updated_cookies)) access_token_
    (token a) (auth a) (account_type a)
    (Some (datetime_now env n + timedelta_days 30))
    (Some (datetime_now env (2 + n) + timedelta_minutes 15))
    (count a)
    (Some (datetime_now env (3 + n)))
    (deleted_at a).

Definition refresh_failed (r : bool * json * json) : bool :=
  let '(success, updated_cookies, access_token_) := r in
  negb success || negb (truthy updated_cookies) || negb (truthy access_token_).

(** The fields steps 4 and 5 never assign. *)
Definition same_credentials (a a' : Token) : Prop :=
  id a' = id a /\ enable a' = enable a /\
  silent_cookies a' = silent_cookies a /\ access_token a' = access_token a /\
  cookies_expires a' = cookies_expires a /\ token_expires a' = token_expires a /\
  updated_at a' = updated_at a /\ count a' = count a /\
  deleted_at a' = deleted_at a.

Definition is_signin (e : event) : bool :=
  match e with ESignin _ => true | _ => false end.

(** A sign-in call is made with a truthy access token. *)
Definition signin_ok (e : event) : bool :=
  match e with ESignin x => truthy x | _ => true end.

(** The events of [refresh_cookies]. *)
Definition pipeline_event (e : event) : bool :=
  match e with
  | ERefresh _ | ECommit _ | ESignin _ | EFetchAuth _ _ | ELog _ => true
  | _ => false
  end.

Definition is_log (e : event) : bool :=
  match e with ELog _ => true | _ => false end.

(** What [refresh_cookies] does to any frame: it returns a verdict, keeps the
    identity of the account, writes at most the refreshed row, leaves the
    cache and the scheduler flag alone, and signs in only for an account
    without a session token. *)
Definition pipeline_keeps (f : frame) (r : outcome bool * frame) : Prop :=
  exists (b : bool) (f' : frame),
    r = (Returns b, f') /\
    id (self f') = id (self f) /\
    count (self f') = count (self f) /\
    deleted_at (self f') = deleted_at (self f) /\
    (store (wld f') = store (wld f) \/
     exists a3, id a3 = id (self f) /\
       store (wld f') = store_write a3 (store (wld f))) /\
    cache_free (wld f') = cache_free (wld f) /\
    cache_paid (wld f') = cache_paid (wld f) /\
    _running (wld f') = _running (wld f) /\
    exists new : list event,
      trace (wld f') = trace (wld f) ++ new /\
      forallb pipeline_event new = true /\
      forallb signin_ok new = true /\
      (truthy (token (self f)) = true ->
         existsb is_signin new = false /\ token (self f') = token (self f)) /\
      (existsb is_signin new = true -> truthy (token (self f)) = false).

Definition mirror_event (e : event) : bool :=
  match e with
  | ECommit _ | EProbe | ECachePut _ _ _ | ECacheRemove _ _ | ELog _ => true
  | _ => false
  end.

Definition is_query (e : event) : bool :=
  match e with EQuery _ => true | _ => false end.

(** The frame right after the commit of step 3, when the Refresh Client has
    answered [updated_cookies] and [access_token_] in the world [w]. *)
Definition committed (env : Env) (cookies updated_cookies access_token_ : json)
  (w : world) (a : Token) : frame :=
  snd (commit_refresh env updated_cookies access_token_
         (mkFrame (asked cookies w) a)).

(** Do steps 4 and 5 return from that frame? *)
Definition identity_returns (env : Env) (f3 : frame) : bool :=
  match fst (derive_identity env f3) with
  | Returns _ => true
  | Raises _ => false
  end.

(** The queries among the events, in order. *)
Definition queries (t : list event) : list query :=
  flat_map (fun e => match e with EQuery q => [q] | _ => [] end) t.

Definition is_expiring_query (e : event) : bool :=
  match e with EQuery (QExpiring _ _) => true | _ => false end.

(** Whom the daily reset touches. *)
Definition eligible (a : Token) : bool :=
  enable a && is_live a && (count a >? 0).

(** Redis is up and takes every put. *)
Definition cache_healthy (env : Env) : Prop :=
  (forall n, test_redis_connection env n = Returns true) /\
  (forall n i d p, cache_account env n i d p = Returns tt).

(** The row [r] after the objects [dirty] are flushed one by one. *)
Definition apply_writes (dirty : list Token) (r : Token) : Token :=
  fold_left (fun r a => if id r =? id a then a else r) dirty r.

(** Probe, cache calls and logs. *)
Definition quiet_mirror (e : event) : bool :=
  mirror_event e && negb (is_commit e).

(** What one turn of the reset loop does to the account [a] in the world
    [w]: it answers whether the counter was reset, leaves the store to the
    commit after the loop, and touches the cache at the id of [a] only. *)
Definition resets_one (env : Env) (w : world) (a : Token)
  (r : outcome bool * frame) : Prop :=
  exists w' : world,
    r = (Returns (count a >? 0),
         mkFrame w' (if count a >? 0 then set_count 0 a else a)) /\
    store w' = store w /\
    _running w' = _running w /\
    (exists new : list event,
        trace w' = trace w ++ new /\ forallb quiet_mirror new = true) /\
    (forall j, j <> id a ->
       cache_free w' !! j = cache_free w !! j /\
       cache_paid w' !! j = cache_paid w !! j) /\
    ((count a >? 0) = false ->
       cache_free w' = cache_free w /\ cache_paid w' = cache_paid w) /\
    (cache_healthy env -> (count a >? 0) = true ->
     forall d, token_to_dict env (set_count 0 a) = Returns d ->
       cache_free w' !! id a = Some d /\
       (if py_eq_str (account_type a) "paid"
        then cache_paid w' !! id a = Some d
        else cache_paid w' = cache_paid w)).

(** What the reset loop does over [accounts], started in [w] with the
    objects [dirty] already modified. *)
Definition resets_all (env : Env) (accounts : list Token) (w : world)
  (dirty : list Token) (r : outcome (list Token) * world) : Prop :=
  exists w' : world,
    r = (Returns (dirty ++ map (set_count 0)
                    (List.filter (fun a => count a >? 0) accounts)), w') /\
    store w' = store w /\
    _running w' = _running w /\
    (exists new : list event,
        trace w' = trace w ++ new /\ forallb quiet_mirror new = true) /\
    (forall j,
       (forall a, In a accounts -> (count a >? 0) = true -> id a <> j) ->
       cache_free w' !! j = cache_free w !! j /\
       cache_paid w' !! j = cache_paid w !! j) /\
    (cache_healthy env -> List.NoDup (map id accounts) ->
     forall a d, In a accounts -> (count a >? 0) = true ->
       token_to_dict env (set_count 0 a) = Returns d ->
       cache_free w' !! id a = Some d /\
       cache_paid w' !! id a =
         if py_eq_str (account_type a) "paid" then Some d
         else cache_paid w !! id a).

Definition is_expiring (q : query) : bool :=
  match q with QExpiring _ _ => true | _ => false end.

(** A turn of the scheduler loop in which nobody stops it and nothing
    raises. *)
Definition quiet_turn (p : poll) : Prop :=
  stop_requested p = false /\ poll_raises p = None.

(** The world after one turn of the scheduler loop. *)
Definition after_turn (env : Env) (turn : nat) (w : world) : world :=
  let p := schedule_run_pending env turn in
  let w := fold_left (fun w j => run_job env j w) (due p) w in
  if stop_requested p then stop_scheduler w else w.

(** What may follow a value in the output of [dumps]: the end, or one of
    the separators. *)
Definition follows (rest : string) : Prop :=
  rest = EmptyString \/
  exists (c : ascii) (r : string),
    rest = String c r /\ (c = ","%char \/ c = "]"%char \/ c = "}"%char).

Fixpoint distinct_keys (l : list (string * json)) : bool :=
  match l with
  | [] => true
  | (k, _) :: l' =>
      negb (existsb (fun kv => String.eqb (fst kv) k) l') && distinct_keys l'
  end.

(** Every dict has its keys once, as a Python dict has. *)
Fixpoint well_formed (v : json) : bool :=
  match v with
  | JArr items => forallb well_formed items
  | JObj members =>
      forallb (fun kv => well_formed (snd kv)) members && distinct_keys members
  | _ => true
  end.

(** Fuel that is enough to read [dumps v] back. *)
Fixpoint json_size (v : json) : nat :=
  match v with
  | JArr items =>
      S ((fix sizes (l : list json) : nat :=
            match l with
            | [] => O
            | x :: l' => S (json_size x + sizes l')
            end) items)
  | JObj members =>
      S ((fix sizes (l : list (string * json)) : nat :=
            match l with
            | [] => O
            | (_, x) :: l' => S (json_size x + sizes l')
            end) members)
  | _ => 1%nat
  end.

Fixpoint items_size (l : list json) : nat :=
  match l with
  | [] => O
  | x :: l' => S (json_size x + items_size l')
  end.

Fixpoint members_size (l : list (string * json)) : nat :=
  match l with
  | [] => O
  | (_, x) :: l' => S (json_size x + members_size l')
  end.

(** The text between the brackets of a dumped list, and between the braces
    of a dumped dict. *)
Fixpoint items_text (l : list json) : string :=
  match l with
  | [] => EmptyString
  | [x] => dumps x
  | x :: l' => String.append (dumps x) (String "," (String " " (items_text l')))
  end.

Fixpoint members_text (l : list (string * json)) : string :=
  match l with
  | [] => EmptyString
  | [(k, x)] =>
      String.append (quote true k) (String ":" (String " " (dumps x)))
  | (k, x) :: l' =>
      String.append (quote true k)
        (String ":" (String " "
           (String.append (dumps x) (String "," (String " " (members_text l'))))))
  end.

Definition no_digit (rest : string) : Prop :=
  match rest with
  | EmptyString => True
  | String c _ => digit_of c = None
  end.

(** Induction on a value with the items of its lists and dicts at hand. *)
Section JsonInduction.

Variable P : json -> Prop.
Hypothesis Hnull : P JNull.
Hypothesis Hbool : forall b, P (JBool b).
Hypothesis Hnum : forall z, P (JNum z).
Hypothesis Hstr : forall s, P (JStr s).
Hypothesis Harr : forall items, List.Forall P items -> P (JArr items).
Hypothesis Hobj :
  forall members, List.Forall (fun kv => P (snd kv)) members -> P (JObj members).

Fixpoint json_nested_ind (v : json) : P v :=
  match v with
  | JNull => Hnull
  | JBool b => Hbool b
  | JNum z => Hnum z
  | JStr s => Hstr s
  | JArr items =>
      Harr items
        ((fix all (l : list json) : List.Forall P l :=
            match l with
            | [] => @List.Forall_nil _ _
            | x :: l' => @List.Forall_cons _ _ x l' (json_nested_ind x) (all l')
            end) items)
  | JObj members =>
      Hobj members
        ((fix all (l : list (string * json))
            : List.Forall (fun kv => P (snd kv)) l :=
            match l with
            | [] => @List.Forall_nil _ _
            | kv :: l' =>
                @List.Forall_cons _ _ kv l' (json_nested_ind (snd kv)) (all l')
            end) members)
  end.

End JsonInduction.

(** * Properties *)

(** ** [json.loads] reads back what [json.dumps] wrote *)

Lemma append_cons (c : ascii) (s t : string) :
  String.append (String c s) t = String c (String.append s t).
Proof. reflexivity. Qed.

Lemma append_nil (t : string) : String.append EmptyString t = t.
Proof. reflexivity. Qed.

Lemma append_assoc (s1 s2 s3 : string) :
  String.append (String.append s1 s2) s3 = String.append s1 (String.append s2 s3).
Proof.
  induction s1 as [|c s1 IH]; [reflexivity|].
  rewrite !append_cons, IH. reflexivity.
Qed.

Lemma length_append (s1 s2 : string) :
  String.length (String.append s1 s2) = (String.length s1 + String.length s2)%nat.
Proof.
  induction s1 as [|c s1 IH]; [reflexivity|].
  rewrite append_cons. cbn [String.length]. rewrite IH. reflexivity.
Qed.

(** *** Strings *)

Lemma scan_escape_char (c : ascii) (tail : string) :
  scan_string (String.append (escape_char true c) tail) =
  cons_char c (scan_string tail).
Proof.
  destruct c as [[] [] [] [] [] [] [] []]; reflexivity.
Qed.

Lemma scan_escape_string (s rest : string) :
  scan_string (String.append (escape_string true s) (String dquote rest)) =
  Some (s, rest).
Proof.
  induction s as [|c s IH]; [reflexivity|].
  cbn [escape_string]. rewrite append_assoc, scan_escape_char, IH. reflexivity.
Qed.

Lemma quote_app (s rest : string) :
  String.append (quote true s) rest =
  String dquote (String.append (escape_string true s) (String dquote rest)).
Proof. unfold quote. rewrite append_cons, append_assoc. reflexivity. Qed.

(** *** Integers *)

Lemma follows_no_digit (rest : string) : follows rest -> no_digit rest.
Proof.
  intros [-> | (c & r & -> & [-> | [-> | ->]])]; reflexivity.
Qed.

Lemma follows_no_float (rest : string) : follows rest -> starts_float rest = false.
Proof.
  intros [-> | (c & r & -> & [-> | [-> | ->]])]; reflexivity.
Qed.

Lemma follows_skip_ws (rest : string) : follows rest -> skip_ws rest = rest.
Proof.
  intros [-> | (c & r & -> & [-> | [-> | ->]])]; reflexivity.
Qed.

Lemma scan_digits_app (d : Decimal.uint) (rest : string) :
  no_digit rest ->
  scan_digits (String.append (NilEmpty.string_of_uint d) rest) = (d, rest).
Proof.
  intros Hrest. induction d as [| d IH | d IH | d IH | d IH | d IH | d IH | d IH
                                | d IH | d IH | d IH];
    cbn [NilEmpty.string_of_uint]; rewrite ?append_cons, ?append_nil.
  - destruct rest as [|c r]; [reflexivity|]. cbn [scan_digits].
    cbn in Hrest. rewrite Hrest. reflexivity.
  - cbn [scan_digits]. change (digit_of "0") with (Some Decimal.D0). cbv iota.
    rewrite IH. reflexivity.
  - cbn [scan_digits]. change (digit_of "1") with (Some Decimal.D1). cbv iota.
    rewrite IH. reflexivity.
  - cbn [scan_digits]. change (digit_of "2") with (Some Decimal.D2). cbv iota.
    rewrite IH. reflexivity.
  - cbn [scan_digits]. change (digit_of "3") with (Some Decimal.D3). cbv iota.
    rewrite IH. reflexivity.
  - cbn [scan_digits]. change (digit_of "4") with (Some Decimal.D4). cbv iota.
    rewrite IH. reflexivity.
  - cbn [scan_digits]. change (digit_of "5") with (Some Decimal.D5). cbv iota.
    rewrite IH. reflexivity.
  - cbn [scan_digits]. change (digit_of "6") with (Some Decimal.D6). cbv iota.
    rewrite IH. reflexivity.
  - cbn [scan_digits]. change (digit_of "7") with (Some Decimal.D7). cbv iota.
    rewrite IH. reflexivity.
  - cbn [scan_digits]. change (digit_of "8") with (Some Decimal.D8). cbv iota.
    rewrite IH. reflexivity.
  - cbn [scan_digits]. change (digit_of "9") with (Some Decimal.D9). cbv iota.
    rewrite IH. reflexivity.
Qed.

Lemma uint_beq_refl (d : Decimal.uint) : Decimal.uint_beq d d = true.
Proof. induction d; cbn; auto. Qed.

Lemma scan_nat_app (n : N) (rest : string) :
  follows rest ->
  scan_nat (String.append (NilEmpty.string_of_uint (N.to_uint n)) rest) =
  Some (n, rest).
Proof.
  intros Hrest. unfold scan_nat.
  rewrite scan_digits_app by (apply follows_no_digit; exact Hrest).
  rewrite DecimalN.Unsigned.of_to, uint_beq_refl, follows_no_float by exact Hrest.
  reflexivity.
Qed.

(** The decimal form of a positive number, and its first character. *)
Lemma pos_digits (p : positive) :
  exists (c : ascii) (s : string),
    NilEmpty.string_of_uint (Pos.to_uint p) = String c s /\
    exists d, digit_of c = Some d.
Proof.
  pose proof (DecimalPos.Unsigned.to_uint_nonnil p) as Hnn.
  destruct (Pos.to_uint p); [contradiction| | | | | | | | | |];
    cbn [NilEmpty.string_of_uint]; do 2 eexists; (split; [reflexivity|]);
    eexists; reflexivity.
Qed.

Lemma digit_head (c : ascii) (d : Decimal.uint -> Decimal.uint) :
  digit_of c = Some d ->
  Ascii.eqb c dquote = false /\ Ascii.eqb c "[" = false /\
  Ascii.eqb c "{" = false /\ Ascii.eqb c "n" = false /\
  Ascii.eqb c "t" = false /\ Ascii.eqb c "f" = false /\
  Ascii.eqb c "-" = false /\ is_ws c = false /\
  Ascii.eqb c "]" = false /\ Ascii.eqb c "}" = false.
Proof.
  destruct c as [[] [] [] [] [] [] [] []]; cbn; intros H;
    try discriminate; repeat split.
Qed.

Lemma scan_int_digits (c : ascii) (s : string) :
  Ascii.eqb c "-" = false ->
  scan_int (String c s) =
    match scan_nat (String c s) with
    | Some (n, rest) => Some (Z.of_N n, rest)
    | None => None
    end.
Proof. intros H. cbn [scan_int]. rewrite H. reflexivity. Qed.

Lemma scan_int_app (z : Z) (rest : string) :
  follows rest ->
  scan_int (String.append (dumps_int z) rest) = Some (z, rest).
Proof.
  intros Hrest. unfold dumps_int. destruct z as [|p|p]; cbn [Z.to_int NilZero.string_of_int].
  - change (NilZero.string_of_uint (Decimal.D0 Decimal.Nil))
      with (NilEmpty.string_of_uint (N.to_uint 0)).
    change (String.append (NilEmpty.string_of_uint (N.to_uint 0)) rest)
      with (String "0" rest).
    rewrite scan_int_digits by reflexivity.
    change (String "0" rest)
      with (String.append (NilEmpty.string_of_uint (N.to_uint 0)) rest).
    rewrite scan_nat_app by exact Hrest. reflexivity.
  - pose proof (scan_nat_app (N.pos p) rest Hrest) as Hn. cbn [N.to_uint] in Hn.
    destruct (pos_digits p) as (c & s & Hs & d & Hd).
    assert (Hz : NilZero.string_of_uint (Pos.to_uint p) =
                 NilEmpty.string_of_uint (Pos.to_uint p)).
    { pose proof (DecimalPos.Unsigned.to_uint_nonnil p).
      destruct (Pos.to_uint p); [contradiction|..]; reflexivity. }
    rewrite Hz. rewrite Hs in *. rewrite append_cons in *.
    rewrite scan_int_digits by (apply (digit_head c d Hd)).
    rewrite Hn. reflexivity.
  - pose proof (scan_nat_app (N.pos p) rest Hrest) as Hn. cbn [N.to_uint] in Hn.
    assert (Hz : NilZero.string_of_uint (Pos.to_uint p) =
                 NilEmpty.string_of_uint (Pos.to_uint p)).
    { pose proof (DecimalPos.Unsigned.to_uint_nonnil p).
      destruct (Pos.to_uint p); [contradiction|..]; reflexivity. }
    rewrite Hz, append_cons. cbn [scan_int].
    change (Ascii.eqb "-" "-") with true. cbv iota. rewrite Hn. reflexivity.
Qed.

(** The first character of a dumped integer is a digit or the sign. *)
Lemma dumps_int_head (z : Z) :
  exists (c : ascii) (s : string),
    dumps_int z = String c s /\
    Ascii.eqb c dquote = false /\ Ascii.eqb c "[" = false /\
    Ascii.eqb c "{" = false /\ Ascii.eqb c "n" = false /\
    Ascii.eqb c "t" = false /\ Ascii.eqb c "f" = false /\ is_ws c = false /\
    Ascii.eqb c "]" = false /\ Ascii.eqb c "}" = false.
Proof.
  unfold dumps_int. destruct z as [|p|p]; cbn [Z.to_int NilZero.string_of_int].
  - do 2 eexists. split; [reflexivity|]. repeat split.
  - destruct (pos_digits p) as (c & s & Hs & d & Hd).
    assert (Hz : NilZero.string_of_uint (Pos.to_uint p) =
                 NilEmpty.string_of_uint (Pos.to_uint p)).
    { pose proof (DecimalPos.Unsigned.to_uint_nonnil p).
      destruct (Pos.to_uint p); [contradiction|..]; reflexivity. }
    rewrite Hz, Hs. exists c, s. split; [reflexivity|].
    pose proof (digit_head c d Hd). tauto.
  - do 2 eexists. split; [reflexivity|]. repeat split.
Qed.

(** *** Values *)

Lemma dumps_arr (l : list json) :
  dumps (JArr l) = String "[" (String.append (items_text l) "]").
Proof. reflexivity. Qed.

Lemma dumps_obj (l : list (string * json)) :
  dumps (JObj l) = String "{" (String.append (members_text l) "}").
Proof. reflexivity. Qed.

Lemma json_size_arr (l : list json) : json_size (JArr l) = S (items_size l).
Proof. reflexivity. Qed.

Lemma json_size_obj (l : list (string * json)) :
  json_size (JObj l) = S (members_size l).
Proof. reflexivity. Qed.

(** A dumped value starts with a character that is neither white space nor
    a closing bracket. *)
Lemma dumps_head (v : json) :
  exists (c : ascii) (s : string),
    dumps v = String c s /\ is_ws c = false /\
    Ascii.eqb c "]" = false /\ Ascii.eqb c "}" = false.
Proof.
  destruct v as [|[]|z|s|l|l].
  1-3, 5-7: do 2 eexists; split; [reflexivity|]; repeat split.
  destruct (dumps_int_head z) as (c & s & Hs & H). exists c, s.
  split; [exact Hs|]. tauto.
Qed.

Lemma skip_ws_dumps (v : json) (rest : string) :
  skip_ws (String.append (dumps v) rest) = String.append (dumps v) rest.
Proof.
  destruct (dumps_head v) as (c & s & -> & Hws & _).
  rewrite append_cons. cbn [skip_ws]. rewrite Hws. reflexivity.
Qed.

Lemma skip_space (s : string) : skip_ws (String " " s) = skip_ws s.
Proof. reflexivity. Qed.

Lemma parse_number (n : nat) (c : ascii) (s : string) :
  Ascii.eqb c dquote = false -> Ascii.eqb c "[" = false ->
  Ascii.eqb c "{" = false -> Ascii.eqb c "n" = false ->
  Ascii.eqb c "t" = false -> Ascii.eqb c "f" = false ->
  parse_value (S n) (String c s) =
    match scan_int (String c s) with
    | Some (z, rest) => Some (JNum z, rest)
    | None => None
    end.
Proof.
  intros H1 H2 H3 H4 H5 H6. cbn [parse_value].
  rewrite H1, H2, H3, H4, H5, H6. reflexivity.
Qed.

Ltac side :=
  first [ lia
        | left; reflexivity
        | right; do 2 eexists; split; [reflexivity | auto] ].

Lemma parse_items_text (l : list json) :
  List.Forall
    (fun v => well_formed v = true ->
              forall fuel rest, (json_size v <= fuel)%nat -> follows rest ->
                parse_value fuel (String.append (dumps v) rest) = Some (v, rest)) l ->
  forallb well_formed l = true ->
  l <> [] ->
  forall (fuel : nat) (acc : list json) (rest : string),
    (items_size l <= fuel)%nat ->
    parse_items fuel acc (String.append (items_text l) (String "]" rest)) =
      Some (JArr (acc ++ l), rest).
Proof.
  induction 1 as [|x l Hx Hl IH]; intros Hwf Hne fuel acc rest Hfuel;
    [contradiction|].
  cbn [forallb] in Hwf. apply andb_true_iff in Hwf as [Hwx Hwl].
  cbn [items_size] in Hfuel. destruct fuel as [|n]; [lia|].
  cbn [parse_items]. destruct l as [|y l'].
  - cbn [items_text].
    rewrite (Hx Hwx n (String "]" rest)) by side.
    reflexivity.
  - change (items_text (x :: y :: l'))
      with (String.append (dumps x) (String "," (String " " (items_text (y :: l'))))).
    rewrite append_assoc, !append_cons.
    rewrite (Hx Hwx n) by side.
    cbn [skip_ws]. change (is_ws ",") with false. cbv iota.
    change (Ascii.eqb "," ",") with true. cbv iota.
    rewrite skip_space.
    assert (Hskip : forall t, skip_ws (String.append (items_text (y :: l')) t) =
                              String.append (items_text (y :: l')) t).
    { intros t. destruct l' as [|z l''].
      - apply skip_ws_dumps.
      - change (items_text (y :: z :: l''))
          with (String.append (dumps y)
                  (String "," (String " " (items_text (z :: l''))))).
        rewrite append_assoc. apply skip_ws_dumps. }
    rewrite Hskip.
    rewrite (IH Hwl) by first [discriminate | cbn [items_size] in *; lia].
    rewrite <- app_assoc. reflexivity.
Qed.

Lemma dict_set_fresh (acc : list (string * json)) (k : string) (v : json) :
  existsb (fun kv => String.eqb (fst kv) k) acc = false ->
  dict_set acc k v = acc ++ [(k, v)].
Proof.
  induction acc as [|[k' v'] acc IH]; [reflexivity|]. cbn. intros H.
  apply orb_false_iff in H as [Hk Hacc]. rewrite Hk, (IH Hacc). reflexivity.
Qed.

Lemma skip_ws_members (l : list (string * json)) (t : string) :
  l <> [] ->
  skip_ws (String.append (members_text l) t) = String.append (members_text l) t.
Proof.
  destruct l as [|[k x] l]; [contradiction|]. intros _.
  destruct l as [|kv l]; cbn [members_text]; unfold quote;
    rewrite !append_cons; reflexivity.
Qed.

Lemma parse_members_text (l : list (string * json)) :
  List.Forall
    (fun kv => well_formed (snd kv) = true ->
               forall fuel rest, (json_size (snd kv) <= fuel)%nat -> follows rest ->
                 parse_value fuel (String.append (dumps (snd kv)) rest) =
                   Some (snd kv, rest)) l ->
  forallb (fun kv => well_formed (snd kv)) l = true ->
  l <> [] ->
  forall (fuel : nat) (acc : list (string * json)) (rest : string),
    (members_size l <= fuel)%nat ->
    distinct_keys l = true ->
    (forall k, In k (map fst l) ->
       existsb (fun kv => String.eqb (fst kv) k) acc = false) ->
    parse_members fuel acc (String.append (members_text l) (String "}" rest)) =
      Some (JObj (acc ++ l), rest).
Proof.
  induction 1 as [|[k x] l Hx Hl IH]; intros Hwf Hne fuel acc rest Hfuel Hdist Hacc;
    [contradiction|].
  cbn [forallb snd] in Hwf. apply andb_true_iff in Hwf as [Hwx Hwl].
  cbn [snd] in Hx.
  cbn [members_size] in Hfuel. destruct fuel as [|n]; [lia|].
  cbn [distinct_keys] in Hdist. apply andb_true_iff in Hdist as [Hk Hdist].
  apply negb_true_iff in Hk.
  assert (Hfresh : dict_set acc k x = acc ++ [(k, x)]).
  { apply dict_set_fresh. apply Hacc. left. reflexivity. }
  assert (Hhead : forall t,
            parse_members (S n) acc
              (String.append (quote true k)
                 (String ":" (String " " (String.append (dumps x) t)))) =
            match parse_value n (String.append (dumps x) t) with
            | Some (v, rest2) =>
                match skip_ws rest2 with
                | EmptyString => None
                | String c3 rest3 =>
                    if Ascii.eqb c3 "," then
                      parse_members n (dict_set acc k v) (skip_ws rest3)
                    else if Ascii.eqb c3 "}" then
                      Some (JObj (dict_set acc k v), rest3)
                    else None
                end
            | None => None
            end).
  { intros t. rewrite quote_app. cbn [parse_members].
    change (Ascii.eqb dquote dquote) with true. cbv iota.
    rewrite scan_escape_string. cbn [skip_ws].
    change (is_ws ":") with false. cbv iota.
    change (Ascii.eqb ":" ":") with true. cbv iota.
    rewrite skip_space, skip_ws_dumps. reflexivity. }
  destruct l as [|kv l'].
  - cbn [members_text]. rewrite append_assoc, !append_cons, Hhead.
    rewrite (Hx Hwx n (String "}" rest)) by side.
    cbn [skip_ws]. change (is_ws "}") with false. cbv iota.
    change (Ascii.eqb "}" ",") with false. change (Ascii.eqb "}" "}") with true.
    cbv iota. rewrite Hfresh. reflexivity.
  - change (members_text ((k, x) :: kv :: l'))
      with (String.append (quote true k)
              (String ":" (String " "
                 (String.append (dumps x)
                    (String "," (String " " (members_text (kv :: l')))))))).
    rewrite append_assoc, !append_cons, append_assoc, !append_cons, Hhead.
    rewrite (Hx Hwx n) by side.
    cbn [skip_ws]. change (is_ws ",") with false. cbv iota.
    change (Ascii.eqb "," ",") with true. cbv iota.
    rewrite skip_space, skip_ws_members by discriminate.
    rewrite Hfresh.
    rewrite (IH Hwl);
      [| discriminate | cbn [members_size] in *; lia | exact Hdist |].
    + rewrite <- app_assoc. reflexivity.
    + intros k' Hk'. rewrite existsb_app, (Hacc k') by (right; exact Hk').
      cbn [existsb fst orb]. rewrite orb_false_r.
      destruct (String.eqb k k') eqn:E; [|reflexivity].
      apply String.eqb_eq in E. subst k'.
      apply in_map_iff in Hk' as (kv' & Hf & Hin).
      assert (Hex : existsb (fun kv0 => String.eqb (fst kv0) k) (kv :: l') = true).
      { apply existsb_exists. exists kv'. split; [exact Hin|].
        rewrite Hf. apply String.eqb_refl. }
      congruence.
Qed.

(** Reading back the dumped text of a well-formed value gives the value and
    what followed it. *)
Lemma parse_value_dumps (v : json) :
  well_formed v = true ->
  forall (fuel : nat) (rest : string),
    (json_size v <= fuel)%nat -> follows rest ->
    parse_value fuel (String.append (dumps v) rest) = Some (v, rest).
Proof.
  induction v as [|b|z|s|l IH|l IH] using json_nested_ind;
    intros Hwf fuel rest Hfuel Hrest;
    (destruct fuel as [|n]; [cbn in Hfuel; lia|]).
  - reflexivity.
  - destruct b; reflexivity.
  - destruct (dumps_int_head z) as (c & s & Hs & H1 & H2 & H3 & H4 & H5 & H6 & _).
    change (dumps (JNum z)) with (dumps_int z). rewrite Hs, append_cons.
    rewrite parse_number by assumption.
    rewrite <- append_cons, <- Hs, scan_int_app by exact Hrest. reflexivity.
  - change (dumps (JStr s)) with (quote true s). rewrite quote_app.
    cbn [parse_value]. change (Ascii.eqb dquote dquote) with true. cbv iota.
    rewrite scan_escape_string. reflexivity.
  - rewrite dumps_arr, append_cons, append_assoc. cbn [parse_value].
    change (Ascii.eqb "[" dquote) with false. change (Ascii.eqb "[" "[") with true.
    cbv iota. rewrite json_size_arr in Hfuel.
    destruct l as [|x l'].
    + reflexivity.
    + assert (Hne : x :: l' <> []) by discriminate.
      assert (Hskip : skip_ws (String.append (items_text (x :: l'))
                                 (String.append "]" rest)) =
                      String.append (items_text (x :: l')) (String.append "]" rest)).
      { destruct l' as [|y l''].
        - apply skip_ws_dumps.
        - change (items_text (x :: y :: l''))
            with (String.append (dumps x)
                    (String "," (String " " (items_text (y :: l''))))).
          rewrite append_assoc. apply skip_ws_dumps. }
      rewrite Hskip.
      pose proof (parse_items_text (x :: l') IH Hwf Hne n [] rest ltac:(lia)) as Hp.
      change (String.append "]" rest) with (String "]" rest).
      assert (Ht : exists c t,
                String.append (items_text (x :: l')) (String "]" rest) = String c t /\
                Ascii.eqb c "]" = false).
      { destruct (dumps_head x) as (c0 & s0 & Hd & _ & Hb & _).
        exists c0. destruct l' as [|y l'']; cbn [items_text];
          rewrite Hd, ?append_assoc, !append_cons; eexists; split;
          first [reflexivity | exact Hb]. }
      destruct Ht as (c & t & Ht & Hc). rewrite Ht in *. rewrite Hc. exact Hp.
  - rewrite dumps_obj, append_cons, append_assoc. cbn [parse_value].
    change (Ascii.eqb "{" dquote) with false. change (Ascii.eqb "{" "[") with false.
    change (Ascii.eqb "{" "{") with true.
    cbv iota. rewrite json_size_obj in Hfuel.
    cbn [well_formed] in Hwf. apply andb_true_iff in Hwf as [Hwf Hdist].
    destruct l as [|kv l'].
    + reflexivity.
    + assert (Hne : kv :: l' <> []) by discriminate.
      rewrite skip_ws_members by exact Hne.
      pose proof (parse_members_text (kv :: l') IH Hwf Hne n [] rest ltac:(lia)
                    Hdist ltac:(reflexivity)) as Hp.
      change (String.append "}" rest) with (String "}" rest).
      destruct kv as [k x].
      assert (Ht : exists t, String.append (members_text ((k, x) :: l'))
                               (String "}" rest) = String dquote t).
      { destruct l' as [|kv' l'']; cbn [members_text]; unfold quote;
          rewrite !append_cons; eexists; reflexivity. }
      destruct Ht as (t & Ht). rewrite Ht in *.
      change (Ascii.eqb dquote "}") with false. cbv iota. exact Hp.
Qed.

Lemma items_size_length (l : list json) :
  List.Forall (fun v => (json_size v <= String.length (dumps v))%nat) l ->
  (items_size l <= S (String.length (items_text l)))%nat /\
  (l = [] -> items_size l = O).
Proof.
  induction 1 as [|x l Hx Hl IH]; [split; [cbn; lia | reflexivity]|].
  split; [|discriminate]. destruct IH as [IH _].
  destruct l as [|y l'].
  - cbn [items_size items_text]. lia.
  - change (items_text (x :: y :: l'))
      with (String.append (dumps x) (String "," (String " " (items_text (y :: l'))))).
    rewrite length_append. cbn [String.length]. cbn [items_size] in *. lia.
Qed.

Lemma length_quote (s : string) : (2 <= String.length (quote true s))%nat.
Proof.
  unfold quote. cbn [String.length]. rewrite length_append. cbn [String.length]. lia.
Qed.

Lemma members_size_length (l : list (string * json)) :
  List.Forall
    (fun kv => (json_size (snd kv) <= String.length (dumps (snd kv)))%nat) l ->
  (members_size l <= S (String.length (members_text l)))%nat.
Proof.
  induction 1 as [|[k x] l Hx Hl IH]; [cbn; lia|]. cbn [snd] in Hx.
  pose proof (length_quote k) as Hq.
  destruct l as [|kv l'].
  - cbn [members_size members_text]. rewrite length_append.
    cbn [String.length]. lia.
  - change (members_text ((k, x) :: kv :: l'))
      with (String.append (quote true k)
              (String ":" (String " "
                 (String.append (dumps x)
                    (String "," (String " " (members_text (kv :: l')))))))).
    rewrite length_append. cbn [String.length]. rewrite length_append.
    cbn [String.length]. change (members_size ((k, x) :: kv :: l'))
      with (S (json_size x + members_size (kv :: l'))). lia.
Qed.

Lemma json_size_length (v : json) :
  (json_size v <= String.length (dumps v))%nat.
Proof.
  induction v as [|b|z|s|l IH|l IH] using json_nested_ind.
  - cbn. lia.
  - destruct b; cbn; lia.
  - destruct (dumps_int_head z) as (c & s & Hs & _).
    change (dumps (JNum z)) with (dumps_int z). rewrite Hs. cbn. lia.
  - change (dumps (JStr s)) with (quote true s). pose proof (length_quote s).
    cbn [json_size]. lia.
  - rewrite dumps_arr, json_size_arr. cbn [String.length]. rewrite length_append.
    destruct (items_size_length l IH) as [H _]. cbn [String.length]. lia.
  - rewrite dumps_obj, json_size_obj. cbn [String.length]. rewrite length_append.
    pose proof (members_size_length l IH). cbn [String.length]. lia.
Qed.

(** [json.loads(json.dumps(v)) == v] *)
Lemma loads_dumps (v : json) : well_formed v = true -> loads (dumps v) = Some v.
Proof.
  intros Hwf. unfold loads.
  pose proof (skip_ws_dumps v EmptyString) as Hskip.
  assert (Hnil : String.append (dumps v) EmptyString = dumps v).
  { generalize (dumps v). induction s as [|c s IH]; [reflexivity|].
    rewrite append_cons, IH. reflexivity. }
  rewrite Hnil in Hskip. rewrite Hskip.
  pose proof (parse_value_dumps v Hwf (S (String.length (dumps v))) EmptyString
                ltac:(pose proof (json_size_length v); lia)
                ltac:(left; reflexivity)) as Hp.
  rewrite Hnil in Hp. rewrite Hp. reflexivity.
Qed.

Lemma dumps_not_empty (v : json) : dumps v <> EmptyString.
Proof. destruct (dumps_head v) as (c & s & -> & _). discriminate. Qed.


(** ** Running the monad in proofs *)

Ltac run :=
  cbv beta iota zeta delta
    [bind try_except assign db_commit call_test_redis_connection
     call_remove_cached_account call_cache_account emit on_world ask lift now
     get_self logger ret py_get parse_cookies_to_dict wld self fst snd];
  cbn [record with_store with_cache_free with_cache_paid with_trace with_ticks
       with_running store cache_free cache_paid trace ticks _running
       set_enable set_silent_cookies set_access_token set_token set_auth
       set_account_type set_cookies_expires set_token_expires set_count
       set_updated_at id account enable silent_cookies access_token token auth
       account_type cookies_expires token_expires count updated_at deleted_at].

(** Case analysis on the next answer the code inspects. *)
Ltac branch :=
  match goal with
  | |- context [match ?x with _ => _ end] =>
      lazymatch x with
      | context [match _ with _ => _ end] => fail
      | _ => destruct x eqn:?
      end
  end; run.

Ltac trace_shape := simpl; rewrite <- ?app_assoc; simpl; reflexivity.

Ltac trace_eq :=
  try unfold asked;
  cbn [snd wld self record with_trace with_ticks with_store trace];
  rewrite <- ?app_assoc; cbn [app]; reflexivity.

(** ** The store *)

Lemma find_store_write (a : Token) (rows : list Token) (i : Z) :
  id a = i ->
  is_Some (find (fun r => id r =? i) rows) ->
  find (fun r => id r =? i) (store_write a rows) = Some a.
Proof.
  intros Hi [b Hb]. induction rows as [|r rows IH]; simpl in *; [discriminate|].
  destruct (id r =? i) eqn:Hr.
  - apply Z.eqb_eq in Hr. rewrite Hr, <- Hi, Z.eqb_refl. simpl.
    now rewrite Z.eqb_refl.
  - destruct (id r =? id a) eqn:Hra.
    + apply Z.eqb_eq in Hra. rewrite Hra, Hi, Z.eqb_refl in Hr. discriminate.
    + simpl. rewrite Hr. auto.
Qed.

Lemma find_store_write_ne (a : Token) (rows : list Token) (i : Z) :
  id a <> i ->
  find (fun r => id r =? i) (store_write a rows) = find (fun r => id r =? i) rows.
Proof.
  intros Hi. induction rows as [|r rows IH]; simpl; [reflexivity|].
  destruct (id r =? id a) eqn:Hra.
  - apply Z.eqb_eq in Hra. rewrite Hra.
    destruct (id a =? i) eqn:E; [apply Z.eqb_eq in E; contradiction | exact IH].
  - destruct (id r =? i); [reflexivity | exact IH].
Qed.

Lemma find_by_id (rows : list Token) (i : Z) (a : Token) :
  find (fun r => id r =? i) rows = Some a -> id a = i /\ In a rows.
Proof.
  intros H. apply find_some in H as [Hin Hid]. split; [now apply Z.eqb_eq | exact Hin].
Qed.

(** ** The state machine: [enable_account] and [disable_account] *)

Ltac first_op_raised :=
  intros _ ? Hop; try (destruct Hop as (? & ? & ?));
  first [ congruence
        | eexists; split; [|reflexivity]; reflexivity ].

Ltac mirror_case :=
  do 2 eexists;
  split; [reflexivity|]; split; [reflexivity|]; split; [trace_shape|];
  split; [reflexivity|]; split; [reflexivity|];
  split; [first [congruence | reflexivity]|];
  split; [first [congruence | intros; reflexivity]|];
  split; [first [congruence | first_op_raised]|];
  simpl; intuition (subst; auto).

Ltac mirror_cases := repeat branch; mirror_case.

Lemma enable_account_spec (env : Env) (f : frame) :
  commits_then_mirrors env true f (enable_account env f).
Proof.
  destruct f as [w a]. unfold commits_then_mirrors, enable_account. run.
  mirror_cases.
Qed.

Lemma disable_account_spec (env : Env) (f : frame) :
  commits_then_mirrors env false f (disable_account env f).
Proof.
  destruct f as [w a]. unfold commits_then_mirrors, disable_account. run.
  mirror_cases.
Qed.



(** ** The pipeline: [refresh_cookies] *)

Lemma commit_refresh_spec (env : Env) (w : world) (a : Token) (upd tok : json) :
  let a3 := refreshed env (ticks w) upd tok a in
  commit_refresh env upd tok (mkFrame w a) =
    (Returns tt,
     mkFrame (record (ECommit [a3])
                (with_store (store_write a3 (store w))
                   (with_ticks (4 + ticks w) w))) a3).
Proof. reflexivity. Qed.

Lemma refresh_cookies_gate (env : Env) (w : world) (a : Token) (cookies : json) :
  holds_cookies a cookies ->
  refresh_cookies env (mkFrame w a) =
    match refresh_silent_cookies env (ticks w) cookies with
    | Raises e => (Returns false, mkFrame (record (ELog LException) (asked cookies w)) a)
    | Returns r =>
        if refresh_failed r then (Returns false, mkFrame (asked cookies w) a)
        else
          let f3 := snd (commit_refresh env (snd (fst r)) (snd r)
                           (mkFrame (asked cookies w) a)) in
          match derive_identity env f3 with
          | (Returns _, f') => (Returns true, f')
          | (Raises e, f') =>
              (Returns false, mkFrame (record (ELog LException) (wld f')) (self f'))
          end
    end.
Proof.
  intros (s & Hs & Hne & Hl & Ht).
  destruct s as [|c s]; [contradiction|].
  unfold refresh_cookies. run. rewrite Hs. run.
  change (String.eqb (String c s) EmptyString) with false. cbv iota.
  rewrite Hl. run. rewrite Ht. cbn [negb]. run.
  destruct (refresh_silent_cookies env (ticks w) cookies) as [[[success upd] tok]|e];
    [|reflexivity].
  unfold refresh_failed.
  destruct (negb success || negb (truthy upd) || negb (truthy tok)); [reflexivity|].
  cbn [fst snd]. rewrite !commit_refresh_spec. cbn [fst snd].
  destruct (derive_identity env _) as [[u|e] f']; reflexivity.
Qed.

Ltac conj :=
  repeat match goal with
         | |- _ /\ _ => split
         | |- exists _, _ => eexists
         end.

Lemma refresh_cookies_total (env : Env) (f : frame) :
  exists (b : bool) (f' : frame), refresh_cookies env f = (Returns b, f').
Proof.
  destruct f as [w a]. unfold refresh_cookies. run.
  repeat branch; eauto.
Qed.

Lemma derive_identity_spec (env : Env) (f : frame) :
  let f' := snd (derive_identity env f) in
  same_credentials (self f) (self f') /\
  store (wld f') = store (wld f) /\
  cache_free (wld f') = cache_free (wld f) /\
  cache_paid (wld f') = cache_paid (wld f) /\
  _running (wld f') = _running (wld f) /\
  exists new : list event,
    trace (wld f') = trace (wld f) ++ new /\
    existsb is_commit new = false /\
    forallb pipeline_event new = true /\
    forallb signin_ok new = true /\
    (truthy (token (self f)) = true ->
       existsb is_signin new = false /\ token (self f') = token (self f)) /\
    (existsb is_signin new = true ->
       truthy (access_token (self f)) = true /\ truthy (token (self f)) = false).
Proof.
  destruct f as [w a]. unfold derive_identity, same_credentials. run.
  repeat branch; cbn [snd wld self]; conj;
    try first [reflexivity | trace_shape];
    cbn [existsb is_signin orb forallb signin_ok andb]; intros; try congruence.
  all: try (apply andb_true_iff in Heqb as [? Hn]; apply negb_true_iff in Hn).
  all: first [congruence | split; congruence | rewrite ?andb_true_r; auto].
Qed.

(** ** What every run of the pipeline keeps *)

Lemma map_id_store_write (a : Token) (rows : list Token) :
  map id (store_write a rows) = map id rows.
Proof.
  unfold store_write. rewrite map_map. apply map_ext_in. intros r _.
  destruct (id r =? id a) eqn:E; [apply Z.eqb_eq in E; congruence | reflexivity].
Qed.

Lemma find_ids (rows rows' : list Token) (i : Z) :
  map id rows' = map id rows ->
  is_Some (find (fun r => id r =? i) rows) ->
  is_Some (find (fun r => id r =? i) rows').
Proof.
  revert rows'. induction rows as [|r rows IH]; intros [|r' rows'] Hm Hs;
    try discriminate; [destruct Hs; discriminate|].
  injection Hm as Hid Hm. cbn in *. rewrite Hid.
  destruct (id r =? i); [eauto | apply IH; assumption].
Qed.

(** Step 1 either lets the account through or ends the call with logs only. *)
Lemma refresh_cookies_cases (env : Env) (w : world) (a : Token) :
  (exists cookies : json, holds_cookies a cookies) \/
  (exists logs : list event,
      refresh_cookies env (mkFrame w a) =
        (Returns false, mkFrame (with_trace (trace w ++ logs) w) a) /\
      forallb is_log logs = true).
Proof.
  destruct (silent_cookies a) as [[|c s]|] eqn:Hs.
  - right. exists [ELog LError]. unfold refresh_cookies. run. rewrite Hs.
    split; reflexivity.
  - destruct (loads (String c s)) as [v|] eqn:Hl.
    + destruct (truthy v) eqn:Ht.
      * left. exists v, (String c s). repeat split; auto; discriminate.
      * right. exists [ELog LError]. unfold refresh_cookies. run. rewrite Hs. run.
        change (String.eqb (String c s) EmptyString) with false. cbv iota.
        rewrite Hl. run. rewrite Ht. split; reflexivity.
    + right. exists [ELog LError; ELog LError]. unfold refresh_cookies. run.
      rewrite Hs. run.
      change (String.eqb (String c s) EmptyString) with false. cbv iota.
      rewrite Hl. run. cbn [truthy negb]. run.
      split; [|reflexivity]. unfold record, with_trace. cbn.
      rewrite <- app_assoc. reflexivity.
  - right. exists [ELog LError]. unfold refresh_cookies. run. rewrite Hs.
    split; reflexivity.
Qed.

Lemma refresh_cookies_spec (env : Env) (f : frame) :
  pipeline_keeps f (refresh_cookies env f).
Proof.
  destruct f as [w a]. unfold pipeline_keeps. cbn [wld self].
  destruct (refresh_cookies_cases env w a) as [[cookies Hgate] | (logs & Hr & Hlogs)].
  - rewrite (refresh_cookies_gate env w a cookies Hgate).
    destruct (refresh_silent_cookies env (ticks w) cookies) as [r|e].
    + destruct (refresh_failed r) eqn:Hfail.
      * do 2 eexists. split; [reflexivity|]. cbn [wld self].
        repeat (split; [first [reflexivity | left; reflexivity]|]).
        exists [ERefresh cookies]. repeat split; auto; discriminate.
      * cbv zeta. rewrite commit_refresh_spec. cbn [snd].
        match goal with
        | |- context [derive_identity env ?f3] =>
            pose proof (derive_identity_spec env f3) as H;
            destruct (derive_identity env f3) as [[u|e] f']
        end; cbn [snd wld self] in H;
          destruct H as ((Hid & _ & _ & _ & _ & _ & _ & Hcnt & Hdel) & Hst & Hcf
                         & Hcp & Hrun & new & Htr & _ & Hpe & Hso & Hkeep & Hsig);
          do 2 eexists; (split; [reflexivity|]); cbn [wld self].
        all: cbn [refreshed token] in Hkeep, Hsig.
        all: split; [exact Hid|]; split; [exact Hcnt|]; split; [exact Hdel|].
        all: split; [right; eexists; split; [|cbn [record with_trace store]; rewrite Hst; reflexivity]; reflexivity|].
        all: split; [cbn; rewrite Hcf; reflexivity|].
        all: split; [cbn; rewrite Hcp; reflexivity|].
        all: split; [cbn; rewrite Hrun; reflexivity|].
        -- exists (ERefresh cookies :: ECommit [refreshed env (ticks (asked cookies w)) (snd (fst r)) (snd r) a] :: new).
           split; [rewrite Htr; trace_eq|].
           cbn [forallb pipeline_event signin_ok existsb is_signin andb orb].
           split; [exact Hpe|]. split; [exact Hso|]. split; [exact Hkeep|].
           intros Hs; apply Hsig in Hs as [_ Hs]; exact Hs.
        -- exists (ERefresh cookies :: ECommit [refreshed env (ticks (asked cookies w)) (snd (fst r)) (snd r) a] :: new ++ [ELog LException]).
           split; [cbn [record with_trace trace]; rewrite Htr; trace_eq|].
           cbn [forallb pipeline_event signin_ok existsb is_signin andb orb].
           rewrite !forallb_app, existsb_app, Hpe, Hso. cbn.
           rewrite orb_false_r. split; [reflexivity|]. split; [reflexivity|].
           split; [exact Hkeep|].
           intros Hs; apply Hsig in Hs as [_ Hs]; exact Hs.
    + do 2 eexists. split; [reflexivity|]. cbn [wld self].
      repeat (split; [first [reflexivity | left; reflexivity]|]).
      exists [ERefresh cookies; ELog LException].
      split; [trace_eq|]. repeat split; auto; discriminate.
  - rewrite Hr. do 2 eexists. split; [reflexivity|]. cbn [wld self].
    repeat (split; [first [reflexivity | left; reflexivity]|]).
    exists logs. split; [reflexivity|].
    assert (Hno : forall l, forallb is_log l = true ->
              forallb pipeline_event l = true /\ forallb signin_ok l = true /\
              existsb is_signin l = false).
    { induction l as [|e l IH]; [auto|]. cbn. intros H.
      apply andb_true_iff in H as [He Hl]. destruct (IH Hl) as (-> & -> & ->).
      destruct e; try discriminate. auto. }
    destruct (Hno logs Hlogs) as (-> & -> & ->). repeat split; auto; discriminate.
Qed.

(** ** One unit of work: [refresh_single_account] *)

Lemma mirror_ops (ops : list event) :
  (forall e, In e ops -> is_cache_op e = true \/ e = ELog LError) ->
  forallb mirror_event ops = true.
Proof.
  intros H. apply forallb_forall. intros e He.
  destruct (H e He) as [Hc | ->]; [destruct e; try discriminate|]; reflexivity.
Qed.

(** The unit of work on an account it finds: the verdict of the pipeline
    decides the flag that is written, and the transition follows. *)
Lemma refresh_single_account_found (env : Env) (i : Z) (w : world) (a : Token) :
  find (fun r => id r =? i) (store w) = Some a ->
  exists (b : bool) (f1 : frame) (ops : list event),
    refresh_cookies env (mkFrame (record (EQuery (QById i)) w) a) = (Returns b, f1) /\
    store (refresh_single_account env i w) =
      store_write (set_enable b (self f1)) (store (wld f1)) /\
    trace (refresh_single_account env i w) =
      trace (wld f1) ++ ECommit [set_enable b (self f1)] :: EProbe :: ops /\
    forallb mirror_event ops = true /\
    _running (refresh_single_account env i w) = _running (wld f1).
Proof.
  intros Hfind. unfold refresh_single_account. cbv zeta.
  change (store (record (EQuery (QById i)) w)) with (store w). rewrite Hfind.
  destruct (refresh_cookies_total env (mkFrame (record (EQuery (QById i)) w) a))
    as (b & f1 & Hr).
  exists b, f1. unfold try_except, bind. rewrite Hr.
  destruct b.
  - destruct (enable_account_spec env f1)
      as (w' & ops & Hen & Hst & Htr & _ & Hrun & _ & _ & _ & Hops).
    rewrite Hen. exists ops. cbn [snd wld].
    repeat (split; [first [reflexivity | assumption]|]).
    split; [apply mirror_ops; exact Hops | exact Hrun].
  - unfold logger, emit, on_world.
    destruct (disable_account_spec env f1)
      as (w' & ops & Hen & Hst & Htr & _ & Hrun & _ & _ & _ & Hops).
    rewrite Hen. exists (ops ++ [ELog LInfo]). cbn [snd wld].
    split; [reflexivity|]. split; [exact Hst|].
    split; [cbn [record with_trace trace]; rewrite Htr, <- app_assoc; reflexivity|].
    split; [|exact Hrun].
    rewrite forallb_app, (mirror_ops ops Hops). reflexivity.
Qed.

Lemma existsb_query_mirror (l : list event) :
  forallb mirror_event l = true -> existsb is_query l = false.
Proof.
  induction l as [|e l IH]; [reflexivity|]. cbn. intros H.
  apply andb_true_iff in H as [He Hl]. rewrite (IH Hl).
  destruct e; try discriminate; reflexivity.
Qed.

Lemma existsb_query_pipeline (l : list event) :
  forallb pipeline_event l = true -> existsb is_query l = false.
Proof.
  induction l as [|e l IH]; [reflexivity|]. cbn. intros H.
  apply andb_true_iff in H as [He Hl]. rewrite (IH Hl).
  destruct e; try discriminate; reflexivity.
Qed.

(** Any unit of work: one lookup by id and no other query, the ids of the
    rows and the scheduler flag as before. *)
Lemma refresh_single_account_spec (env : Env) (i : Z) (w : world) :
  map id (store (refresh_single_account env i w)) = map id (store w) /\
  _running (refresh_single_account env i w) = _running w /\
  exists rest : list event,
    trace (refresh_single_account env i w) = trace w ++ EQuery (QById i) :: rest /\
    existsb is_query rest = false.
Proof.
  destruct (find (fun r => id r =? i) (store w)) as [a|] eqn:Hfind.
  - destruct (refresh_single_account_found env i w a Hfind)
      as (b & f1 & ops & Hr & Hst & Htr & Hops & Hrun).
    destruct (refresh_cookies_spec env (mkFrame (record (EQuery (QById i)) w) a))
      as (b' & f1' & Hr' & _ & _ & _ & Hstore & _ & _ & Hrun' & new & Htr' & Hpe & _).
    rewrite Hr in Hr'. injection Hr' as <- <-. cbn [wld self] in *.
    split; [|split].
    + rewrite Hst, map_id_store_write.
      destruct Hstore as [-> | (a3 & _ & ->)]; [reflexivity|].
      apply map_id_store_write.
    + rewrite Hrun, Hrun'. reflexivity.
    + exists (new ++ ECommit [set_enable b (self f1)] :: EProbe :: ops).
      split; [rewrite Htr, Htr'; cbn [record with_trace trace];
              rewrite <- !app_assoc; reflexivity|].
      rewrite existsb_app, (existsb_query_pipeline new Hpe). cbn.
      apply existsb_query_mirror; exact Hops.
  - unfold refresh_single_account. cbv zeta.
    change (store (record (EQuery (QById i)) w)) with (store w). rewrite Hfind.
    split; [reflexivity|]. split; [reflexivity|].
    exists [ELog LError]. split; [|reflexivity].
    cbn [record with_trace trace]. rewrite <- app_assoc. reflexivity.
Qed.

(** C4: when the Refresh Client answers with a false success flag, an empty
    credential mapping or an empty access token, [refresh_cookies] returns
    false and leaves the account object and the store as they were, and after
    the unit of work the stored row is the old row with [enable] false: the
    credential blob, the access token and both expiry fields are unchanged. *)
Theorem refresh_failure_disables
  (env : Env) (w : world) (i : Z) (a : Token) (cookies : json)
  (success : bool) (updated_cookies access_token_ : json) :
  find (fun r => id r =? i) (store w) = Some a ->
  holds_cookies a cookies ->
  refresh_silent_cookies env (ticks w) cookies =
    Returns (success, updated_cookies, access_token_) ->
  success = false \/ truthy updated_cookies = false \/ truthy access_token_ = false ->
  refresh_cookies env (mkFrame w a) = (Returns false, mkFrame (asked cookies w) a) /\
  store (asked cookies w) = store w /\
  exists a' : Token,
    find (fun r => id r =? i) (store (refresh_single_account env i w)) = Some a' /\
    a' = set_enable false a /\
    enable a' = false /\
    silent_cookies a' = silent_cookies a /\
    access_token a' = access_token a /\
    cookies_expires a' = cookies_expires a /\
    token_expires a' = token_expires a.
Proof.
  intros Hfind Hgate Hans Hfail.
  assert (Hbad : refresh_failed (success, updated_cookies, access_token_) = true).
  { unfold refresh_failed. destruct Hfail as [-> | [-> | ->]]; simpl;
      rewrite ?orb_true_r; reflexivity. }
  assert (Hr : forall w0, ticks w0 = ticks w ->
            refresh_cookies env (mkFrame w0 a) = (Returns false, mkFrame (asked cookies w0) a)).
  { intros w0 Ht. rewrite (refresh_cookies_gate env w0 a cookies Hgate), Ht, Hans, Hbad.
    reflexivity. }
  split; [apply Hr; reflexivity|]. split; [reflexivity|].
  destruct (refresh_single_account_found env i w a Hfind) as (b & f1 & ops & Hrc & Hst & _).
  rewrite Hr in Hrc by reflexivity. injection Hrc as <- <-.
  rewrite Hst. cbn [self wld]. exists (set_enable false a).
  split; [|repeat split].
  apply find_store_write; [apply find_by_id in Hfind as [? _]; assumption|].
  cbn. rewrite Hfind. eauto.
Qed.

Lemma refresh_failure_disables_witness :
  holds_cookies Scenario.alice Scenario.cookies_ab /\
  exists a' : Token,
    find (fun r => id r =? 7)
      (store (refresh_single_account Scenario.env_refused 7 Scenario.w0)) = Some a' /\
    enable a' = false /\
    silent_cookies a' = silent_cookies Scenario.alice.
Proof.
  assert (Hgate : holds_cookies Scenario.alice Scenario.cookies_ab).
  { exists (dumps Scenario.cookies_ab).
    split; [reflexivity|]. split; [discriminate|]. split; reflexivity. }
  split; [exact Hgate|].
  destruct (refresh_failure_disables Scenario.env_refused Scenario.w0 7
              Scenario.alice Scenario.cookies_ab false JNull JNull
              eq_refl Hgate eq_refl (or_introl eq_refl))
    as (_ & _ & a' & Hfind & _ & Hen & Hsc & _).
  exists a'. split; [exact Hfind|]. split; [exact Hen | exact Hsc].
Defined.


(** ** The verdict after the success commit *)

Lemma committed_spec (env : Env) (cookies upd tok : json) (w : world) (a : Token) :
  let a3 := refreshed env (S (ticks w)) upd tok a in
  committed env cookies upd tok w a =
    mkFrame (record (ECommit [a3])
               (with_store (store_write a3 (store w))
                  (with_ticks (5 + ticks w) (record (ERefresh cookies) w)))) a3.
Proof. reflexivity. Qed.

Lemma refresh_cookies_committed
  (env : Env) (w : world) (a : Token) (cookies upd tok : json) :
  holds_cookies a cookies ->
  refresh_silent_cookies env (ticks w) cookies = Returns (true, upd, tok) ->
  truthy upd = true -> truthy tok = true ->
  refresh_cookies env (mkFrame w a) =
    match derive_identity env (committed env cookies upd tok w a) with
    | (Returns _, f') => (Returns true, f')
    | (Raises e, f') =>
        (Returns false, mkFrame (record (ELog LException) (wld f')) (self f'))
    end.
Proof.
  intros Hgate Hans Hu Ht.
  rewrite (refresh_cookies_gate env w a cookies Hgate), Hans.
  unfold refresh_failed. rewrite Hu, Ht. reflexivity.
Qed.

(** An empty answer of the identity fetch is no exception. *)
Lemma empty_identity_returns (env : Env) (f : frame) (v : json) :
  truthy (token (self f)) = true ->
  fetch_auth_info env (ticks (wld f)) (token (self f)) (access_token (self f)) =
    Returns v ->
  truthy v = false ->
  identity_returns env f = true.
Proof.
  destruct f as [w a]. cbn [wld self]. intros Htok Hf Hv.
  unfold identity_returns, derive_identity. run.
  rewrite Htok, andb_false_r. run. rewrite Hf. run. rewrite Hv. reflexivity.
Qed.




(** ** The parse gate *)



(** ** The session token is derived once *)

Lemma existsb_signin_mirror (l : list event) :
  forallb mirror_event l = true -> existsb is_signin l = false.
Proof.
  induction l as [|e l IH]; [reflexivity|]. cbn. intros H.
  apply andb_true_iff in H as [He Hl]. rewrite (IH Hl).
  destruct e; try discriminate; reflexivity.
Qed.

(** A unit of work on an account that has a session token signs in nowhere
    and stores the same session token. *)
Lemma unit_keeps_session (env : Env) (i : Z) (w : world) (a : Token) :
  find (fun r => id r =? i) (store w) = Some a ->
  truthy (token a) = true ->
  (exists a' : Token,
      find (fun r => id r =? i) (store (refresh_single_account env i w)) = Some a' /\
      token a' = token a) /\
  exists new : list event,
    trace (refresh_single_account env i w) = trace w ++ new /\
    existsb is_signin new = false.
Proof.
  intros Hfind Htok.
  pose proof (find_by_id _ _ _ Hfind) as [Hid _].
  destruct (refresh_single_account_found env i w a Hfind)
    as (b & f1 & ops & Hr & Hst & Htr & Hops & _).
  destruct (refresh_cookies_spec env (mkFrame (record (EQuery (QById i)) w) a))
    as (b' & f1' & Hr' & Hid' & _ & _ & Hstore & _ & _ & _ & new & Htr' & _ & _
        & Hkeep & _).
  rewrite Hr in Hr'. injection Hr' as <- <-. cbn [wld self] in *.
  destruct (Hkeep Htok) as [Hno Hsame].
  split.
  - exists (set_enable b (self f1)). split; [|exact Hsame].
    rewrite Hst. apply find_store_write; [cbn; congruence|].
    apply (find_ids (store w)); [|rewrite Hfind; eauto].
    destruct Hstore as [-> | (a3 & _ & ->)]; [reflexivity|].
    apply map_id_store_write.
  - exists (EQuery (QById i) :: new ++ ECommit [set_enable b (self f1)] :: EProbe :: ops).
    split.
    + rewrite Htr, Htr'. cbn [record with_trace trace].
      rewrite <- !app_assoc. reflexivity.
    + cbn [existsb is_signin orb]. rewrite existsb_app, Hno.
      cbn [existsb is_signin orb]. apply existsb_signin_mirror; exact Hops.
Qed.

(** C6: an account that has a session token is never signed in again, however
    many times the unit of work runs on it; and in any run of the pipeline a
    sign-in call is made only for an account without a session token, with an
    access token that is not empty. *)
Theorem signin_only_without_session (env : Env) :
  (forall (n : nat) (i : Z) (w : world) (a : Token),
      find (fun r => id r =? i) (store w) = Some a ->
      truthy (token a) = true ->
      exists new : list event,
        trace (Nat.iter n (refresh_single_account env i) w) = trace w ++ new /\
        existsb is_signin new = false) /\
  (forall f : frame,
      exists new : list event,
        trace (wld (snd (refresh_cookies env f))) = trace (wld f) ++ new /\
        forallb signin_ok new = true /\
        (truthy (token (self f)) = true ->
           existsb is_signin new = false /\
           token (self (snd (refresh_cookies env f))) = token (self f)) /\
        (existsb is_signin new = true -> truthy (token (self f)) = false)).
Proof.
  split.
  - intros n i w a Hfind Htok.
    assert (H : exists a' new,
               find (fun r => id r =? i)
                 (store (Nat.iter n (refresh_single_account env i) w)) = Some a' /\
               token a' = token a /\
               trace (Nat.iter n (refresh_single_account env i) w) = trace w ++ new /\
               existsb is_signin new = false).
    { induction n as [|n IH].
      - exists a, []. cbn. rewrite app_nil_r. auto.
      - destruct IH as (a1 & new1 & Hf1 & Ht1 & Htr1 & Hno1).
        assert (Htok1 : truthy (token a1) = true) by (rewrite Ht1; exact Htok).
        destruct (unit_keeps_session env i _ a1 Hf1 Htok1)
          as ((a2 & Hf2 & Ht2) & new2 & Htr2 & Hno2).
        exists a2, (new1 ++ new2). rewrite !Nat.iter_succ.
        split; [exact Hf2|]. split; [congruence|].
        split; [rewrite Htr2, Htr1, app_assoc; reflexivity|].
        rewrite existsb_app, Hno1, Hno2. reflexivity. }
    destruct H as (_ & new & _ & _ & Htr & Hno). exists new. auto.
  - intros f.
    destruct (refresh_cookies_spec env f)
      as (b & f' & Hr & _ & _ & _ & _ & _ & _ & _ & new & Htr & _ & Hok & Hkeep & Hsig).
    rewrite Hr. cbn [snd]. exists new. auto.
Qed.

Lemma signin_only_without_session_witness :
  truthy (token Scenario.carol) = true /\
  exists new : list event,
    trace (Nat.iter 3 (refresh_single_account Scenario.env0 9) Scenario.w0) =
      trace Scenario.w0 ++ new /\
    existsb is_signin new = false.
Proof.
  split; [reflexivity|].
  exact (proj1 (signin_only_without_session Scenario.env0) 3%nat 9 Scenario.w0
           Scenario.carol eq_refl eq_refl).
Defined.

(** ** The success commit *)

(** C3: when the Refresh Client reports success with a credential mapping and
    an access token that are not empty, then after [refresh_cookies] the
    account has [enable] true, the expiry of the credential is a reading of
    the clock taken in step 3 plus 30 days, the expiry of the session is such
    a reading plus 15 minutes, [updated_at] is the last such reading (all
    three are [now]-based on one and the same [now] when the clock does not
    move during step 3), the stored blob is the serialization of the updated
    mapping and parses back to it, and all of this is committed as one row,
    in one commit, right after the answer of the Refresh Client and before
    any sign-in or identity call. *)
Theorem refresh_success_commits
  (env : Env) (w : world) (i : Z) (a : Token) (cookies upd tok : json) :
  find (fun r => id r =? i) (store w) = Some a ->
  holds_cookies a cookies ->
  refresh_silent_cookies env (ticks w) cookies = Returns (true, upd, tok) ->
  truthy upd = true ->
  truthy tok = true ->
  well_formed upd = true ->
  let f' := snd (refresh_cookies env (mkFrame w a)) in
  let a' := self f' in
  let a3 := refreshed env (S (ticks w)) upd tok a in
  (enable a' = true /\
   cookies_expires a' = Some (datetime_now env (1 + ticks w) + 30 * 86400) /\
   token_expires a' = Some (datetime_now env (3 + ticks w) + 15 * 60) /\
   updated_at a' = Some (datetime_now env (4 + ticks w)) /\
   access_token a' = tok /\
   silent_cookies a' = Some (dumps upd)) /\
  (forall t : Z,
     (forall k, (1 <= k <= 4)%nat -> datetime_now env (k + ticks w) = t) ->
     cookies_expires a' = Some (t + timedelta_days 30) /\
     token_expires a' = Some (t + timedelta_minutes 15) /\
     updated_at a' = Some t) /\
  (loads (dumps upd) = Some upd /\
   fst (parse_cookies_to_dict (dumps upd) f') = Returns upd) /\
  (same_credentials a3 a' /\
   find (fun r => id r =? i) (store (wld f')) = Some a3) /\
  exists later : list event,
    trace (wld f') = trace w ++ ERefresh cookies :: ECommit [a3] :: later /\
    existsb is_commit later = false.
Proof.
  intros Hfind Hgate Hans Hu Ht Hwf. cbv zeta.
  pose proof (find_by_id _ _ _ Hfind) as [Hid _].
  rewrite (refresh_cookies_committed env w a cookies upd tok Hgate Hans Hu Ht).
  pose proof (derive_identity_spec env (committed env cookies upd tok w a)) as Hd.
  rewrite committed_spec in Hd |- *. cbv zeta in Hd |- *.
  set (a3 := refreshed env (S (ticks w)) upd tok a) in *.
  cbn [snd wld self record with_trace with_store store trace] in Hd.
  assert (Hloads : loads (dumps upd) = Some upd) by (apply loads_dumps; exact Hwf).
  assert (Hparse : forall f, fst (parse_cookies_to_dict (dumps upd) f) = Returns upd).
  { intros f. unfold parse_cookies_to_dict.
    destruct (dumps upd) as [|c s] eqn:Hdumps; [destruct (dumps_not_empty upd Hdumps)|].
    change (String.eqb (String c s) EmptyString) with false. cbv iota.
    rewrite Hloads. reflexivity. }
  destruct (derive_identity env _) as [[u|e] f1]; cbn [snd wld self] in *;
    destruct Hd as ((Hi & Hen & Hsc & Hat & Hce & Hte & Hua & Hcnt & Hdel)
                    & Hstore & _ & _ & _ & new & Htr & Hnc & _);
    cbn [record with_trace store trace].
  all: split; [rewrite Hen, Hce, Hte, Hua, Hat, Hsc; subst a3; cbn; repeat split|].
  all: split;
    [intros t Hclock; rewrite Hce, Hte, Hua; subst a3;
     cbn [refreshed cookies_expires token_expires updated_at];
     pose proof (Hclock 1%nat ltac:(lia)) as H1;
     pose proof (Hclock 3%nat ltac:(lia)) as H3;
     pose proof (Hclock 4%nat ltac:(lia)) as H4;
     cbn [Nat.add] in H1, H3, H4 |- *; rewrite H1, H3, H4; repeat split|].
  all: split; [split; [exact Hloads | apply Hparse]|].
  all: split;
    [split; [repeat split; assumption|]; rewrite Hstore;
     apply find_store_write; [exact Hid | rewrite Hfind; eauto]|].
  - exists new. rewrite Htr. split; [|exact Hnc].
    cbn [with_ticks record with_trace trace]. rewrite <- !app_assoc. reflexivity.
  - exists (new ++ [ELog LException]). rewrite Htr.
    split; [cbn [with_ticks record with_trace trace];
            rewrite <- !app_assoc; reflexivity|].
    rewrite existsb_app, Hnc. reflexivity.
Qed.

Lemma refresh_success_commits_witness :
  holds_cookies Scenario.alice Scenario.cookies_ab /\
  well_formed Scenario.cookies_ac = true /\
  let a' := self (snd (refresh_cookies Scenario.env0
                         (mkFrame Scenario.w0 Scenario.alice))) in
  enable a' = true /\
  cookies_expires a' = Some (1001 + 30 * 86400) /\
  token_expires a' = Some (1003 + 15 * 60) /\
  silent_cookies a' = Some (dumps Scenario.cookies_ac).
Proof.
  assert (Hgate : holds_cookies Scenario.alice Scenario.cookies_ab).
  { exists (dumps Scenario.cookies_ab).
    split; [reflexivity|]. split; [discriminate|]. split; reflexivity. }
  split; [exact Hgate|]. split; [reflexivity|].
  destruct (refresh_success_commits Scenario.env0 Scenario.w0 7 Scenario.alice
              Scenario.cookies_ab Scenario.cookies_ac Scenario.tok123
              eq_refl Hgate eq_refl eq_refl eq_refl eq_refl)
    as ((Hen & Hce & Hte & _ & _ & Hsc) & _).
  cbv zeta. split; [exact Hen|]. split; [exact Hce|]. split; [exact Hte | exact Hsc].
Defined.

(** ** The daily reset *)

Lemma fold_store_write (dirty rows : list Token) :
  fold_left (fun rows a => store_write a rows) dirty rows =
  map (apply_writes dirty) rows.
Proof.
  revert rows. induction dirty as [|d dirty IH]; intros rows; cbn.
  - symmetry. apply map_id.
  - rewrite IH. unfold store_write. rewrite map_map. reflexivity.
Qed.

Lemma apply_writes_none (dirty : list Token) (r : Token) :
  (forall d, In d dirty -> id d <> id r) -> apply_writes dirty r = r.
Proof.
  unfold apply_writes. induction dirty as [|d dirty IH]; intros H; cbn; [reflexivity|].
  destruct (id r =? id d) eqn:E.
  - apply Z.eqb_eq in E. exfalso. apply (H d); [left; reflexivity | congruence].
  - apply IH. intros d' Hd'. apply H. right. exact Hd'.
Qed.

Lemma apply_writes_fixed (dirty : list Token) (x : Token) :
  (forall d, In d dirty -> id d = id x -> d = x) -> apply_writes dirty x = x.
Proof.
  unfold apply_writes. induction dirty as [|d dirty IH]; intros H; cbn; [reflexivity|].
  destruct (id x =? id d) eqn:E.
  - apply Z.eqb_eq in E. rewrite (H d); [|left; reflexivity | congruence].
    apply IH. intros d' Hd'. apply H. right. exact Hd'.
  - apply IH. intros d' Hd'. apply H. right. exact Hd'.
Qed.

Lemma apply_writes_some (dirty : list Token) (r x : Token) :
  In x dirty -> id x = id r ->
  (forall d, In d dirty -> id d = id r -> d = x) ->
  apply_writes dirty r = x.
Proof.
  unfold apply_writes. revert r.
  induction dirty as [|d dirty IH]; intros r Hin Hid H; [destruct Hin|]. cbn.
  destruct (id r =? id d) eqn:E.
  - apply Z.eqb_eq in E. assert (d = x) as -> by (apply H; [left; reflexivity | congruence]).
    apply apply_writes_fixed. intros d' Hd' Hid'. apply H; [right; exact Hd' | congruence].
  - destruct Hin as [-> | Hin]; [rewrite Hid, Z.eqb_refl in E; discriminate|].
    apply IH; [exact Hin | exact Hid |]. intros d' Hd'. apply H. right. exact Hd'.
Qed.

Lemma same_id_same_row (rows : list Token) (a b : Token) :
  List.NoDup (map id rows) -> In a rows -> In b rows -> id a = id b -> a = b.
Proof.
  induction rows as [|r rows IH]; intros Hnd Ha Hb Hid; [destruct Ha|].
  cbn in Hnd. apply NoDup_cons_iff in Hnd as [Hnot Hnd].
  destruct Ha as [-> | Ha], Hb as [-> | Hb]; [reflexivity | | | auto].
  - exfalso. apply Hnot. rewrite Hid. apply in_map. exact Hb.
  - exfalso. apply Hnot. rewrite <- Hid. apply in_map. exact Ha.
Qed.

(** Flushing the reset objects rewrites exactly the eligible rows. *)
Lemma write_reset_rows (p : Token -> bool) (rows : list Token) :
  List.NoDup (map id rows) ->
  fold_left (fun rows a => store_write a rows)
    (map (set_count 0) (List.filter p rows)) rows =
  map (fun a => if p a then set_count 0 a else a) rows.
Proof.
  intros Hnd. rewrite fold_store_write. apply map_ext_in. intros r Hr.
  destruct (p r) eqn:Hp.
  - apply apply_writes_some.
    + apply in_map. apply filter_In. auto.
    + reflexivity.
    + intros d Hd Hid. apply in_map_iff in Hd as (a & <- & Ha).
      apply filter_In in Ha as [Ha _]. f_equal.
      apply (same_id_same_row rows); auto.
  - apply apply_writes_none. intros d Hd Hid.
    apply in_map_iff in Hd as (a & <- & Ha). apply filter_In in Ha as [Ha Hpa].
    assert (a = r) by (apply (same_id_same_row rows); auto). congruence.
Qed.

Lemma reset_one_spec (env : Env) (w : world) (a : Token) :
  resets_one env w a (reset_one env (mkFrame w a)).
Proof.
  unfold resets_one, reset_one. run.
  destruct (count a >? 0) eqn:Hc; run.
  - repeat branch; eexists; (split; [reflexivity|]); cbn.
    all: split; [reflexivity|]; split; [reflexivity|].
    all: split; [eexists; split; [first [trace_shape | symmetry; apply app_nil_r]|reflexivity]|].
    all: split; [intros j Hj; rewrite ?lookup_insert_ne by congruence; auto|].
    all: split; [discriminate|].
    all: intros [Hup Hput] _ d Hd.
    all: try (rewrite Hup in *; discriminate).
    all: try (rewrite Hput in *; discriminate).
    all: try congruence.
    all: match goal with
         | H : token_to_dict _ _ = Returns ?x |- _ =>
             assert (x = d) as -> by congruence
         end.
    all: rewrite ?lookup_insert_eq; auto.
  - eexists. split; [reflexivity|]. cbn.
    split; [reflexivity|]. split; [reflexivity|].
    split; [exists []; split; [symmetry; apply app_nil_r | reflexivity]|].
    split; [auto|]. split; [auto|]. discriminate.
Qed.

Lemma reset_loop_spec (env : Env) (accounts : list Token) :
  forall (w : world) (dirty : list Token),
    resets_all env accounts w dirty (reset_loop env accounts w dirty).
Proof.
  induction accounts as [|a rest IH]; intros w dirty; unfold resets_all.
  - exists w. cbn. rewrite app_nil_r. split; [reflexivity|].
    split; [reflexivity|]. split; [reflexivity|].
    split; [exists []; split; [symmetry; apply app_nil_r | reflexivity]|].
    split; [auto|]. intros _ _ a d [].
  - cbn [reset_loop].
    destruct (reset_one_spec env w a)
      as (w1 & -> & Hst1 & Hrun1 & (new1 & Htr1 & Hq1) & Hoth1 & Hsame1 & Hgood1).
    cbn [wld self List.filter].
    destruct (count a >? 0) eqn:Hc.
    + destruct (IH w1 (dirty ++ [set_count 0 a]))
        as (w' & -> & Hst & Hrun & (new & Htr & Hq) & Hoth & Hgood).
      exists w'. split; [cbn [map]; rewrite <- app_assoc; reflexivity|].
      split; [congruence|]. split; [congruence|].
      split; [exists (new1 ++ new); split;
              [rewrite Htr, Htr1, app_assoc; reflexivity
              | rewrite forallb_app, Hq1, Hq; reflexivity]|].
      split.
      * intros j Hj.
        destruct (Hoth j) as [Hf Hp]; [intros b Hb; apply Hj; right; exact Hb|].
        destruct (Hoth1 j) as [Hf1 Hp1];
          [intros E; apply (Hj a); [left; reflexivity | exact Hc | congruence]|].
        split; congruence.
      * intros Hh Hnd b d Hb Hcb Hd.
        cbn in Hnd. apply NoDup_cons_iff in Hnd as [Hnot Hnd].
        destruct Hb as [<- | Hb].
        -- destruct (Hoth (id a)) as [Hf Hp].
           { intros b Hb _ E. apply Hnot. rewrite <- E. apply in_map. exact Hb. }
           destruct (Hgood1 Hh eq_refl d Hd) as [Hf1 Hp1].
           split; [congruence|]. rewrite Hp.
           destruct (py_eq_str (account_type a) "paid"); congruence.
        -- destruct (Hgood Hh Hnd b d Hb Hcb Hd) as [Hf Hp].
           split; [exact Hf|]. rewrite Hp.
           destruct (py_eq_str (account_type b) "paid"); [reflexivity|].
           apply Hoth1. intros E. apply Hnot. rewrite <- E. apply in_map. exact Hb.
    + destruct (IH w1 dirty)
        as (w' & -> & Hst & Hrun & (new & Htr & Hq) & Hoth & Hgood).
      destruct (Hsame1 eq_refl) as [Hcf Hcp].
      exists w'. split; [reflexivity|].
      split; [congruence|]. split; [congruence|].
      split; [exists (new1 ++ new); split;
              [rewrite Htr, Htr1, app_assoc; reflexivity
              | rewrite forallb_app, Hq1, Hq; reflexivity]|].
      split.
      * intros j Hj.
        destruct (Hoth j) as [Hf Hp]; [intros b Hb; apply Hj; right; exact Hb|].
        split; congruence.
      * intros Hh Hnd b d Hb Hcb Hd.
        cbn in Hnd. apply NoDup_cons_iff in Hnd as [Hnot Hnd].
        destruct Hb as [<- | Hb]; [congruence|].
        destruct (Hgood Hh Hnd b d Hb Hcb Hd) as [Hf Hp].
        split; [exact Hf|]. rewrite Hp, Hcp. reflexivity.
Qed.

Lemma filter_eligible (rows : list Token) :
  List.filter (fun a => count a >? 0)
    (List.filter (fun a => enable a && is_live a) rows) =
  List.filter eligible rows.
Proof.
  induction rows as [|r rows IH]; [reflexivity|]. cbn [List.filter].
  unfold eligible at 1.
  destruct (enable r && is_live r); cbn [List.filter andb];
    [destruct (count r >? 0)|]; rewrite IH; reflexivity.
Qed.

Lemma NoDup_ids_filter (p : Token -> bool) (rows : list Token) :
  List.NoDup (map id rows) -> List.NoDup (map id (List.filter p rows)).
Proof.
  induction rows as [|r rows IH]; intros Hnd; [constructor|].
  cbn in *. apply NoDup_cons_iff in Hnd as [Hnot Hnd].
  destruct (p r); [|auto]. cbn. constructor; [|auto].
  intros Hin. apply Hnot. apply in_map_iff in Hin as (a & Ha & Hin).
  apply filter_In in Hin as [Hin _]. rewrite <- Ha. apply in_map. exact Hin.
Qed.

Lemma queries_app (l1 l2 : list event) :
  queries (l1 ++ l2) = queries l1 ++ queries l2.
Proof. apply flat_map_app. Qed.

Lemma quiet_mirror_events (l : list event) :
  forallb quiet_mirror l = true ->
  queries l = [] /\ forall flushed, ~ In (ECommit flushed) l.
Proof.
  induction l as [|e l IH]; [intros _; split; [reflexivity | intros ? []]|].
  cbn [forallb]. intros H. apply andb_true_iff in H as [He Hl].
  destruct (IH Hl) as [Hq Hc]. split.
  - unfold queries in *. cbn [flat_map]. rewrite Hq.
    destruct e; try discriminate; reflexivity.
  - intros flushed [-> | Hin]; [discriminate | exact (Hc _ Hin)].
Qed.

(** The reset as a whole, before any assumption on the ids. *)
Lemma reset_account_counts_spec (env : Env) (w : world) :
  let w' := reset_account_counts env w in
  let dirty := map (set_count 0) (List.filter eligible (store w)) in
  store w' = fold_left (fun rows a => store_write a rows) dirty (store w) /\
  _running w' = _running w /\
  (exists new : list event,
      trace w' = trace w ++ new /\
      queries new = [QEnabledLive] /\
      forall flushed, In (ECommit flushed) new -> flushed = dirty) /\
  (forall j,
     (forall a, In a (store w) -> eligible a = true -> id a <> j) ->
     cache_free w' !! j = cache_free w !! j /\
     cache_paid w' !! j = cache_paid w !! j) /\
  (cache_healthy env -> List.NoDup (map id (store w)) ->
   forall a d, In a (store w) -> eligible a = true ->
     token_to_dict env (set_count 0 a) = Returns d ->
     cache_free w' !! id a = Some d /\
     cache_paid w' !! id a =
       if py_eq_str (account_type a) "paid" then Some d
       else cache_paid w !! id a).
Proof.
  cbv zeta. unfold reset_account_counts. cbv zeta.
  set (w2 := record (EQuery QEnabledLive) (record (ELog LInfo) w)).
  change (store w2) with (store w).
  pose proof (filter_eligible (store w)) as Hfe.
  destruct (List.filter (fun a => enable a && is_live a) (store w))
    as [|a0 accounts] eqn:Hacc.
  - cbn in Hfe. rewrite <- Hfe. cbn.
    split; [reflexivity|]. split; [reflexivity|].
    split; [exists [ELog LInfo; EQuery QEnabledLive; ELog LInfo]; split;
            [rewrite <- !app_assoc; reflexivity|]; split; [reflexivity|];
            intros flushed [H|[H|[H|[]]]]; discriminate|].
    split; [auto|].
    intros _ _ a d Ha He. exfalso.
    assert (Hin : In a (List.filter (fun a => enable a && is_live a) (store w))).
    { apply filter_In. split; [exact Ha|]. unfold eligible in He.
      apply andb_true_iff in He as [He _]. exact He. }
    rewrite Hacc in Hin. destruct Hin.
  - rewrite <- Hacc in *.
    set (accounts' := List.filter (fun a => enable a && is_live a) (store w)) in *.
    destruct (reset_loop_spec env accounts' w2 [])
      as (w3 & -> & Hst & Hrun & (new & Htr & Hq) & Hoth & Hgood).
    cbn [app] in *. rewrite Hfe. cbn [store with_store record with_trace _running
      trace cache_free cache_paid].
    destruct (quiet_mirror_events new Hq) as [Hnq Hnc].
    split; [rewrite Hst; reflexivity|]. split; [exact Hrun|].
    split.
    { exists ([ELog LInfo; EQuery QEnabledLive] ++ new ++
              [ECommit (map (set_count 0) (List.filter eligible (store w)));
               ELog LInfo]).
      split; [rewrite Htr; subst w2; cbn [record with_trace trace];
              rewrite <- !app_assoc; reflexivity|].
      split; [rewrite !queries_app, Hnq; reflexivity|].
      intros flushed Hin. apply in_app_or in Hin as [[H|[H|[]]] | Hin];
        try discriminate.
      apply in_app_or in Hin as [Hin | [H|[H|[]]]]; try discriminate.
      - exfalso. exact (Hnc _ Hin).
      - congruence. }
    assert (Hel : forall a, In a accounts' /\ (count a >? 0) = true <->
                            In a (store w) /\ eligible a = true).
    { intros a. subst accounts'. rewrite filter_In. unfold eligible.
      rewrite !andb_true_iff. tauto. }
    split.
    + intros j Hj. apply Hoth. intros a Ha Hc. apply Hj; apply (Hel a); auto.
    + intros Hh Hnd a d Ha He Hd.
      apply (Hgood Hh (NoDup_ids_filter _ _ Hnd) a d); [apply Hel| apply Hel|]; auto.
Qed.

(** C7: the daily reset sets [count] to 0 on exactly the rows that are
    enabled, live and have a positive count, and leaves every other row as it
    was; its one commit flushes the reset rows and no other; the cache is
    touched at the ids of the reset rows only, and when Redis is up and takes
    the puts, every reset account is mirrored with its zeroed snapshot into
    the free partition, and into the paid partition when its type is
    [paid]. *)
Theorem daily_reset (env : Env) (w : world) :
  List.NoDup (map id (store w)) ->
  let w' := reset_account_counts env w in
  store w' = map (fun a => if eligible a then set_count 0 a else a) (store w) /\
  (forall a, In a (store w) -> eligible a = true ->
     In (set_count 0 a) (store w') /\ count (set_count 0 a) = 0) /\
  (forall a, In a (store w) -> eligible a = false -> In a (store w')) /\
  (exists new : list event,
      trace w' = trace w ++ new /\
      queries new = [QEnabledLive] /\
      forall flushed, In (ECommit flushed) new ->
        flushed = map (set_count 0) (List.filter eligible (store w))) /\
  (forall j,
     (forall a, In a (store w) -> eligible a = true -> id a <> j) ->
     cache_free w' !! j = cache_free w !! j /\
     cache_paid w' !! j = cache_paid w !! j) /\
  (cache_healthy env ->
   forall a d, In a (store w) -> eligible a = true ->
     token_to_dict env (set_count 0 a) = Returns d ->
     cache_free w' !! id a = Some d /\
     cache_paid w' !! id a =
       if py_eq_str (account_type a) "paid" then Some d
       else cache_paid w !! id a).
Proof.
  intros Hnd w'.
  destruct (reset_account_counts_spec env w) as (Hst & _ & Htr & Hoth & Hgood).
  fold w' in Hst, Htr, Hoth, Hgood.
  assert (Hmap : store w' =
            map (fun a => if eligible a then set_count 0 a else a) (store w)).
  { rewrite Hst. apply write_reset_rows. exact Hnd. }
  split; [exact Hmap|].
  split; [|split; [|split; [exact Htr|split; [exact Hoth|]]]].
  - intros a Ha He. split; [|reflexivity]. rewrite Hmap.
    apply in_map_iff. exists a. rewrite He. auto.
  - intros a Ha He. rewrite Hmap. apply in_map_iff. exists a. rewrite He. auto.
  - intros Hh. apply Hgood; assumption.
Qed.

Lemma daily_reset_witness :
  List.NoDup (map id (store Scenario.w0)) /\
  eligible Scenario.carol = true /\
  store (reset_account_counts Scenario.env0 Scenario.w0) =
    [Scenario.alice; Scenario.bob; set_count 0 Scenario.carol] /\
  cache_paid (reset_account_counts Scenario.env0 Scenario.w0) !! 9 =
    Some (Scenario.snapshot (set_count 0 Scenario.carol)).
Proof.
  assert (Hnd : List.NoDup (map id (store Scenario.w0))).
  { cbn. repeat constructor; cbn; intuition discriminate. }
  assert (Hh : cache_healthy Scenario.env0) by (split; reflexivity).
  destruct (daily_reset Scenario.env0 Scenario.w0 Hnd)
    as (Hst & _ & _ & _ & _ & Hgood).
  split; [exact Hnd|]. split; [reflexivity|]. split; [exact Hst|].
  destruct (Hgood Hh Scenario.carol (Scenario.snapshot (set_count 0 Scenario.carol)))
    as [_ Hp]; [cbn; auto | reflexivity | reflexivity | exact Hp].
Defined.

(** ** The batch pass *)

Lemma queries_none (l : list event) :
  existsb is_query l = false -> queries l = [].
Proof.
  induction l as [|e l IH]; [reflexivity|]. cbn [existsb]. intros H.
  apply orb_false_iff in H as [He Hl]. unfold queries in *. cbn [flat_map].
  rewrite (IH Hl). destruct e; try discriminate; reflexivity.
Qed.

Lemma in_queries (q : query) (l : list event) :
  In q (queries l) -> In (EQuery q) l.
Proof.
  unfold queries. intros H. apply in_flat_map in H as (e & He & Hq).
  destruct e; cbn in Hq; try contradiction. destruct Hq as [-> | []]. exact He.
Qed.

Lemma expiring_queries (l : list event) :
  existsb is_expiring_query l = existsb is_expiring (queries l).
Proof.
  induction l as [|e l IH]; [reflexivity|]. unfold queries in *.
  cbn [existsb flat_map]. rewrite existsb_app, IH.
  destruct e; try reflexivity. cbn. rewrite orb_false_r. reflexivity.
Qed.

Lemma lookups_not_expiring (accounts : list Token) :
  existsb is_expiring (map (fun a => QById (id a)) accounts) = false.
Proof. induction accounts as [|a l IH]; [reflexivity | exact IH]. Qed.

Lemma batch_fold_spec (env : Env) (accounts : list Token) :
  forall w : world,
    let w' := fold_left (fun w a => refresh_single_account env (id a) w) accounts w in
    map id (store w') = map id (store w) /\
    _running w' = _running w /\
    exists new : list event,
      trace w' = trace w ++ new /\
      queries new = map (fun a => QById (id a)) accounts.
Proof.
  induction accounts as [|a rest IH]; intros w; cbn [fold_left].
  - split; [reflexivity|]. split; [reflexivity|].
    exists []. split; [symmetry; apply app_nil_r | reflexivity].
  - destruct (refresh_single_account_spec env (id a) w)
      as (Hids & Hrun & rest1 & Htr & Hq).
    destruct (IH (refresh_single_account env (id a) w))
      as (Hids' & Hrun' & new & Htr' & Hq').
    cbv zeta. split; [congruence|]. split; [congruence|].
    exists ((EQuery (QById (id a)) :: rest1) ++ new).
    split; [rewrite Htr', Htr, app_assoc; reflexivity|].
    rewrite queries_app, Hq'. unfold queries at 1. cbn [flat_map].
    fold (queries rest1). rewrite (queries_none rest1 Hq). reflexivity.
Qed.

Lemma check_and_refresh_accounts_spec (env : Env) (w : world) :
  let w' := check_and_refresh_accounts env w in
  map id (store w') = map id (store w) /\
  _running w' = _running w /\
  exists new : list event,
    trace w' = trace w ++ new /\
    queries new =
      QLive :: map (fun a => QById (id a)) (List.filter is_live (store w)).
Proof.
  cbv zeta. unfold check_and_refresh_accounts. cbv zeta.
  change (store (record (EQuery QLive) (record (ELog LInfo) w))) with (store w).
  destruct (List.filter is_live (store w)) as [|a0 accounts] eqn:Hacc.
  - split; [reflexivity|]. split; [reflexivity|].
    exists [ELog LInfo; EQuery QLive; ELog LInfo].
    split; [cbn; rewrite <- !app_assoc; reflexivity | reflexivity].
  - destruct (batch_fold_spec env (a0 :: accounts)
                (record (ELog LInfo) (record (EQuery QLive) (record (ELog LInfo) w))))
      as (Hids & Hrun & new & Htr & Hq).
    cbn [store record with_trace _running trace] in *.
    split; [exact Hids|]. split; [exact Hrun|].
    exists ([ELog LInfo; EQuery QLive; ELog LInfo] ++ new ++ [ELog LInfo]).
    split; [rewrite Htr, <- !app_assoc; reflexivity|].
    rewrite !queries_app, Hq. cbn. rewrite app_nil_r. reflexivity.
Qed.

(** ** The scheduler *)

Lemma run_job_spec (env : Env) (j : job) (w : world) :
  _running (run_job env j w) = _running w /\
  exists new : list event,
    trace (run_job env j w) = trace w ++ new /\
    existsb is_expiring_query new = false.
Proof.
  destruct j; cbn [run_job].
  - destruct (check_and_refresh_accounts_spec env w) as (_ & Hrun & new & Htr & Hq).
    split; [exact Hrun|]. exists new. split; [exact Htr|].
    rewrite expiring_queries, Hq. cbn. apply lookups_not_expiring.
  - destruct (reset_account_counts_spec env w) as (_ & Hrun & (new & Htr & Hq & _) & _).
    split; [exact Hrun|]. exists new. split; [exact Htr|].
    rewrite expiring_queries, Hq. reflexivity.
Qed.

Lemma run_jobs_spec (env : Env) (jobs : list job) :
  forall w : world,
    let w' := fold_left (fun w j => run_job env j w) jobs w in
    _running w' = _running w /\
    exists new : list event,
      trace w' = trace w ++ new /\ existsb is_expiring_query new = false.
Proof.
  induction jobs as [|j jobs IH]; intros w; cbn [fold_left]; cbv zeta.
  - split; [reflexivity|]. exists []. split; [symmetry; apply app_nil_r | reflexivity].
  - destruct (run_job_spec env j w) as (Hrun & new1 & Htr1 & Hq1).
    destruct (IH (run_job env j w)) as (Hrun' & new & Htr & Hq).
    split; [congruence|]. exists (new1 ++ new).
    split; [rewrite Htr, Htr1, app_assoc; reflexivity|].
    rewrite existsb_app, Hq1, Hq. reflexivity.
Qed.

(** When the loop is left by its test, the flag is false; whatever it did,
    it asked for no expiring accounts. *)
Lemma scheduler_loop_spec (env : Env) (fuel : nat) :
  forall (turn : nat) (w : world) (r : outcome unit) (w' : world),
    scheduler_loop env fuel turn w = Some (r, w') ->
    (r = Returns tt -> _running w' = false) /\
    exists new : list event,
      trace w' = trace w ++ new /\ existsb is_expiring_query new = false.
Proof.
  induction fuel as [|fuel IH]; intros turn w r w' H; cbn [scheduler_loop] in H.
  - destruct (_running w) eqn:Hrun; [discriminate|]. injection H as <- <-.
    split; [auto|]. exists []. split; [symmetry; apply app_nil_r | reflexivity].
  - destruct (_running w) eqn:Hrun.
    + cbv zeta in H.
      destruct (run_jobs_spec env (due (schedule_run_pending env turn)) w)
        as (_ & new1 & Htr1 & Hq1). cbv zeta in Htr1.
      set (w1 := fold_left (fun w j => run_job env j w)
                   (due (schedule_run_pending env turn)) w) in *.
      set (w2 := if stop_requested (schedule_run_pending env turn)
                 then stop_scheduler w1 else w1) in *.
      assert (Hw2 : exists new2, trace w2 = trace w ++ new2 /\
                                 existsb is_expiring_query new2 = false).
      { subst w2. destruct (stop_requested _).
        - exists (new1 ++ [ELog LInfo]). cbn. rewrite Htr1, app_assoc.
          split; [reflexivity|]. rewrite existsb_app, Hq1. reflexivity.
        - exists new1. auto. }
      destruct Hw2 as (new2 & Htr2 & Hq2).
      destruct (poll_raises (schedule_run_pending env turn)) as [e|].
      * injection H as <- <-. split; [discriminate|]. exists new2. auto.
      * destruct (IH _ _ _ _ H) as (Hflag & new & Htr & Hq).
        split; [exact Hflag|]. exists (new2 ++ new).
        split; [rewrite Htr, Htr2, app_assoc; reflexivity|].
        rewrite existsb_app, Hq2, Hq. reflexivity.
    + injection H as <- <-. split; [auto|].
      exists []. split; [symmetry; apply app_nil_r | reflexivity].
Qed.

Lemma scheduler_loop_step (env : Env) (fuel turn : nat) (w : world) :
  _running w = true ->
  scheduler_loop env (S fuel) turn w =
    match poll_raises (schedule_run_pending env turn) with
    | Some e => Some (Raises e, after_turn env turn w)
    | None => scheduler_loop env fuel (S turn) (after_turn env turn w)
    end.
Proof. intros H. cbn [scheduler_loop]. rewrite H. reflexivity. Qed.

Lemma scheduler_loop_off (env : Env) (fuel turn : nat) (w : world) :
  _running w = false -> scheduler_loop env fuel turn w = Some (Returns tt, w).
Proof. intros H. destruct fuel; cbn [scheduler_loop]; rewrite H; reflexivity. Qed.

Lemma after_turn_running (env : Env) (turn : nat) (w : world) :
  _running (after_turn env turn w) =
    if stop_requested (schedule_run_pending env turn) then false else _running w.
Proof.
  unfold after_turn. cbv zeta.
  destruct (run_jobs_spec env (due (schedule_run_pending env turn)) w) as (Hr & _).
  cbv zeta in Hr. destruct (stop_requested _); [reflexivity | exact Hr].
Qed.

(** The loop leaves within [k + 1] turns when turn [k] raises or is asked
    to stop, and from then on more fuel changes nothing. *)
Lemma scheduler_loop_exits (env : Env) (k : nat) :
  forall (turn fuel : nat) (w : world),
    (k < fuel)%nat ->
    _running w = true ->
    (forall j, (j < k)%nat -> quiet_turn (schedule_run_pending env (turn + j))) ->
    stop_requested (schedule_run_pending env (turn + k)) = true \/
    poll_raises (schedule_run_pending env (turn + k)) <> None ->
    exists (r : outcome unit) (w' : world),
      scheduler_loop env fuel turn w = Some (r, w') /\
      scheduler_loop env (S k) turn w = Some (r, w') /\
      (r = Returns tt <-> poll_raises (schedule_run_pending env (turn + k)) = None).
Proof.
  induction k as [|k IH]; intros turn fuel w Hfuel Hrun Hquiet Hexit.
  - destruct fuel as [|fuel]; [lia|].
    rewrite !scheduler_loop_step by exact Hrun.
    rewrite Nat.add_0_r in *.
    destruct (poll_raises (schedule_run_pending env turn)) as [e|] eqn:Hp.
    + do 2 eexists. split; [reflexivity|]. split; [reflexivity|].
      split; discriminate.
    + destruct Hexit as [Hstop | Hne]; [|congruence].
      assert (Hoff : _running (after_turn env turn w) = false)
        by (rewrite after_turn_running, Hstop; reflexivity).
      rewrite !scheduler_loop_off by exact Hoff.
      do 2 eexists. split; [reflexivity|]. split; [reflexivity|]. tauto.
  - destruct fuel as [|fuel]; [lia|].
    rewrite !scheduler_loop_step by exact Hrun.
    destruct (Hquiet 0%nat ltac:(lia)) as [Hs Hp]. rewrite Nat.add_0_r in Hs, Hp.
    rewrite Hp.
    replace (turn + S k)%nat with (S turn + k)%nat in * by lia.
    apply (IH (S turn) fuel); [lia | | | exact Hexit].
    + rewrite after_turn_running, Hs. exact Hrun.
    + intros j Hj. replace (S turn + j)%nat with (turn + S j)%nat by lia.
      apply Hquiet. lia.
Qed.

(** Left alone, the loop is still running after any number of turns. *)
Lemma scheduler_loop_runs (env : Env) (fuel : nat) :
  forall (turn : nat) (w : world),
    _running w = true ->
    (forall j, quiet_turn (schedule_run_pending env j)) ->
    scheduler_loop env fuel turn w = None.
Proof.
  induction fuel as [|fuel IH]; intros turn w Hrun Hquiet.
  - cbn [scheduler_loop]. rewrite Hrun. reflexivity.
  - rewrite scheduler_loop_step by exact Hrun.
    destruct (Hquiet turn) as [Hs Hp]. rewrite Hp.
    apply IH; [|exact Hquiet]. rewrite after_turn_running, Hs. exact Hrun.
Qed.

Lemma run_scheduler_trace (env : Env) (fuel : nat) (w w' : world) :
  run_scheduler env fuel w = Some w' ->
  exists new : list event,
    trace w' = trace w ++ new /\ existsb is_expiring_query new = false.
Proof.
  unfold run_scheduler. destruct (_running w).
  - intros H. injection H as <-. exists [ELog LWarning]. auto.
  - cbv zeta. destruct (schedule_every env) as [u|e].
    + destruct (scheduler_loop env fuel 0 _) as [[r w1]|] eqn:Hloop; [|discriminate].
      destruct (scheduler_loop_spec env fuel _ _ _ _ Hloop) as (_ & new & Htr & Hq).
      cbn [record with_running with_trace trace] in Htr.
      destruct r; intros H; injection H as <-.
      * exists ([ELog LInfo; ELog LInfo] ++ new).
        cbn [with_running trace]. rewrite Htr, <- !app_assoc.
        split; [reflexivity|]. exact Hq.
      * exists ([ELog LInfo; ELog LInfo] ++ new ++ [ELog LException]).
        cbn [with_running record with_trace trace]. rewrite Htr, <- !app_assoc.
        split; [reflexivity|]. cbn [app existsb is_expiring_query orb].
        rewrite existsb_app, Hq. reflexivity.
    + intros H. injection H as <-. exists [ELog LException]. auto.
Qed.

(** C5: the batch pass asks the store for the live rows, with no condition
    on [enable] or on the expiry, and looks up every one of them by id; the
    lookup of the accounts that expire within seven days is a function of its
    own, with its own query, and no pass, job or run of the scheduler ever
    issues that query. *)
Theorem batch_selects_every_live_account (env : Env) (w : world) :
  (exists new : list event,
      trace (check_and_refresh_accounts env w) = trace w ++ new /\
      queries new =
        QLive :: map (fun a => QById (id a)) (List.filter is_live (store w))) /\
  (forall a, In a (store w) -> deleted_at a = None ->
     In (EQuery (QById (id a))) (trace (check_and_refresh_accounts env w))) /\
  (let t := datetime_now env (ticks w) in
   fst (find_expiring_accounts env w) =
     List.filter
       (fun a => enable a && is_live a && in_window t (t + 7 * 86400) a)
       (store w) /\
   trace (snd (find_expiring_accounts env w)) =
     trace w ++ [EQuery (QExpiring t (t + 7 * 86400)); ELog LInfo]) /\
  (forall j : job,
      exists new : list event,
        trace (run_job env j w) = trace w ++ new /\
        existsb is_expiring_query new = false) /\
  (forall (fuel : nat) (w' : world),
      main env fuel w = Some w' ->
      exists new : list event,
        trace w' = trace w ++ new /\ existsb is_expiring_query new = false).
Proof.
  destruct (check_and_refresh_accounts_spec env w) as (_ & _ & new & Htr & Hq).
  split; [exists new; auto|]. split; [|split; [|split]].
  - intros a Ha Hlive. rewrite Htr. apply in_or_app. right.
    apply in_queries. rewrite Hq. right.
    apply (in_map (fun a => QById (id a))). apply filter_In.
    split; [exact Ha|]. unfold is_live. rewrite Hlive. reflexivity.
  - cbv zeta. split; [reflexivity|].
    unfold find_expiring_accounts. cbn. rewrite <- app_assoc. reflexivity.
  - intros j. apply run_job_spec.
  - intros fuel w' Hmain. unfold main in Hmain.
    destruct (run_scheduler_trace env fuel _ w' Hmain) as (new2 & Htr2 & Hq2).
    destruct (check_and_refresh_accounts_spec env (record (ELog LInfo) w))
      as (_ & _ & new1 & Htr1 & Hq1).
    exists ([ELog LInfo] ++ new1 ++ new2).
    split; [rewrite Htr2, Htr1; cbn [record with_trace trace];
            rewrite <- !app_assoc; reflexivity|].
    cbn [app existsb is_expiring_query orb].
    rewrite existsb_app, Hq2, orb_false_r, expiring_queries, Hq1.
    cbn. apply lookups_not_expiring.
Qed.

Lemma batch_selects_every_live_account_witness :
  enable Scenario.alice = false /\
  fst (find_expiring_accounts Scenario.env0 Scenario.w0) = [Scenario.carol] /\
  In (EQuery (QById 7))
    (trace (check_and_refresh_accounts Scenario.env0 Scenario.w0)).
Proof.
  split; [reflexivity|]. split; [reflexivity|].
  refine (proj1 (proj2 (batch_selects_every_live_account Scenario.env0 Scenario.w0))
            Scenario.alice _ eq_refl).
  cbn. auto.
Defined.

(** C9: [run_scheduler] on a loop that is already running logs a warning
    and does nothing else, the flag staying set for the loop that runs; a
    call that does start the loop ends with the flag false on every way out;
    when a turn raises, the loop ends there with the flag false and the
    exception logged; when [stop_scheduler], which clears the flag, is called
    during a turn, the loop ends at its next test; and a loop that nobody
    stops and in which nothing raises is still running after any number of
    turns. *)
Theorem scheduler_running_flag (env : Env) :
  (forall (fuel : nat) (w : world),
      _running w = true ->
      run_scheduler env fuel w = Some (record (ELog LWarning) w)) /\
  (forall (fuel : nat) (w w' : world),
      _running w = false ->
      run_scheduler env fuel w = Some w' -> _running w' = false) /\
  (forall w : world, _running (stop_scheduler w) = false) /\
  (forall (k : nat) (w : world),
      _running w = false ->
      schedule_every env = Returns tt ->
      (forall j, (j < k)%nat -> quiet_turn (schedule_run_pending env j)) ->
      stop_requested (schedule_run_pending env k) = true \/
      poll_raises (schedule_run_pending env k) <> None ->
      forall fuel : nat, (k < fuel)%nat ->
        exists w' : world,
          run_scheduler env fuel w = Some w' /\
          run_scheduler env (S k) w = Some w' /\
          _running w' = false /\
          (poll_raises (schedule_run_pending env k) <> None ->
             exists t, trace w' = t ++ [ELog LException])) /\
  (forall (fuel : nat) (w : world) (e : string),
      _running w = false ->
      schedule_every env = Raises e ->
      exists w' : world, run_scheduler env fuel w = Some w' /\ _running w' = false) /\
  (forall (fuel : nat) (w : world),
      _running w = false ->
      schedule_every env = Returns tt ->
      (forall j, quiet_turn (schedule_run_pending env j)) ->
      run_scheduler env fuel w = None).
Proof.
  split; [|split; [|split; [|split; [|split]]]].
  - intros fuel w Hrun. unfold run_scheduler. rewrite Hrun. reflexivity.
  - intros fuel w w' Hrun H. unfold run_scheduler in H. rewrite Hrun in H.
    cbv zeta in H. destruct (schedule_every env) as [u|e].
    + destruct (scheduler_loop env fuel 0 _) as [[[u'|e] w1]|];
        [| |discriminate]; injection H as <-; reflexivity.
    + injection H as <-. reflexivity.
  - reflexivity.
  - intros k w Hrun Hreg Hquiet Hexit fuel Hfuel.
    unfold run_scheduler. rewrite Hrun, Hreg. cbv zeta.
    set (w1 := record (ELog LInfo) (record (ELog LInfo) (with_running true w))).
    destruct (scheduler_loop_exits env k 0 fuel w1 Hfuel eq_refl Hquiet Hexit)
      as (r & w2 & H1 & H2 & Hr).
    rewrite H1, H2. destruct r as [u|e].
    + eexists. split; [reflexivity|]. split; [reflexivity|].
      split; [reflexivity|]. intros Hne. exfalso. apply Hne. apply Hr.
      destruct u. reflexivity.
    + eexists. split; [reflexivity|]. split; [reflexivity|].
      split; [reflexivity|]. intros _. eexists. reflexivity.
  - intros fuel w e Hrun Hreg. unfold run_scheduler. rewrite Hrun, Hreg.
    eexists. split; reflexivity.
  - intros fuel w Hrun Hreg Hquiet. unfold run_scheduler. rewrite Hrun, Hreg.
    cbv zeta. rewrite scheduler_loop_runs; [reflexivity | reflexivity | exact Hquiet].
Qed.

Lemma scheduler_running_flag_witness :
  _running Scenario.w0 = false /\
  poll_raises (schedule_run_pending Scenario.env_crash 2) <> None /\
  exists w' : world,
    run_scheduler Scenario.env_crash 5 Scenario.w0 = Some w' /\
    run_scheduler Scenario.env_crash 3 Scenario.w0 = Some w' /\
    _running w' = false.
Proof.
  assert (Hquiet : forall j, (j < 2)%nat ->
            quiet_turn (schedule_run_pending Scenario.env_crash j)).
  { intros j Hj. destruct j as [|[|j]]; [split; reflexivity | split; reflexivity | lia]. }
  assert (Hexit : poll_raises (schedule_run_pending Scenario.env_crash 2) <> None)
    by discriminate.
  split; [reflexivity|]. split; [exact Hexit|].
  destruct (proj1 (proj2 (proj2 (proj2 (scheduler_running_flag Scenario.env_crash))))
              2%nat Scenario.w0 eq_refl eq_refl Hquiet (or_intror Hexit) 5%nat
              ltac:(lia))
    as (w' & H1 & H2 & Hoff & _).
  exists w'. auto.
Defined.

(** ** Soft-deleted accounts *)

Lemma in_store_write_ne (r a : Token) (rows : list Token) :
  In r rows -> id r <> id a -> In r (store_write a rows).
Proof.
  intros Hin Hne. unfold store_write. apply in_map_iff. exists r.
  split; [|exact Hin]. destruct (id r =? id a) eqn:E; [|reflexivity].
  apply Z.eqb_eq in E. contradiction.
Qed.

Lemma unit_other_rows (env : Env) (i : Z) (w : world) (r : Token) :
  In r (store w) -> id r <> i -> In r (store (refresh_single_account env i w)).
Proof.
  intros Hin Hne.
  destruct (find (fun x => id x =? i) (store w)) as [a|] eqn:Hfind.
  - pose proof (find_by_id _ _ _ Hfind) as [Hid _].
    destruct (refresh_single_account_found env i w a Hfind)
      as (b & f1 & ops & Hr & Hst & _).
    destruct (refresh_cookies_spec env (mkFrame (record (EQuery (QById i)) w) a))
      as (b' & f1' & Hr' & Hid' & _ & _ & Hstore & _).
    rewrite Hr in Hr'. injection Hr' as <- <-. cbn [wld self record with_trace store] in *.
    rewrite Hst. apply in_store_write_ne; [|cbn; congruence].
    destruct Hstore as [-> | (a3 & Ha3 & ->)]; [exact Hin|].
    apply in_store_write_ne; [exact Hin | congruence].
  - unfold refresh_single_account. cbv zeta.
    change (store (record (EQuery (QById i)) w)) with (store w). rewrite Hfind.
    exact Hin.
Qed.

(** Taken alone, a batch pass leaves the soft-deleted rows as they are: it
    dispatches the ids of the live rows, and ids are unique. *)
Lemma batch_leaves_soft_deleted_rows (env : Env) (w : world) (r : Token) :
  List.NoDup (map id (store w)) ->
  In r (store w) -> is_live r = false ->
  In r (store (check_and_refresh_accounts env w)).
Proof.
  intros Hnd Hin Hdel. unfold check_and_refresh_accounts. cbv zeta.
  change (store (record (EQuery QLive) (record (ELog LInfo) w))) with (store w).
  assert (Hfold : forall accounts w0,
            In r (store w0) ->
            (forall a, In a accounts -> id a <> id r) ->
            In r (store (fold_left
                           (fun w a => refresh_single_account env (id a) w)
                           accounts w0))).
  { induction accounts as [|a rest IH]; intros w0 Hr Hids; [exact Hr|].
    cbn [fold_left]. apply IH.
    - apply unit_other_rows; [exact Hr|]. intros E. apply (Hids a); [left|]; auto.
    - intros b Hb. apply Hids. right. exact Hb. }
  destruct (List.filter is_live (store w)) as [|a0 accounts] eqn:Hacc; [exact Hin|].
  cbn [record with_trace store]. apply Hfold; [exact Hin|].
  intros a Ha E. rewrite <- Hacc in Ha. apply filter_In in Ha as [Ha Hlive].
  assert (a = r) by (apply (same_id_same_row (store w)); auto). congruence.
Qed.

(** C1 fails on the lookup of the unit of work, which filters on the id
    alone: [bob] was live when the batch pass loaded the ids and is
    soft-deleted when his unit runs; the unit reads his row, refreshes it,
    enables it and puts it into the cache. *)
Theorem soft_deleted_account_is_refreshed :
  In 8 (map id (List.filter is_live (store Scenario.w_live))) /\
  find (fun r => id r =? 8) (store Scenario.w0) = Some Scenario.bob /\
  deleted_at Scenario.bob = Some 10 /\
  enable Scenario.bob = false /\
  let w' := refresh_single_account Scenario.env0 8 Scenario.w0 in
  queries (trace w') = [QById 8] /\
  In (ERefresh Scenario.cookies_ab) (trace w') /\
  exists a' : Token,
    find (fun r => id r =? 8) (store w') = Some a' /\
    deleted_at a' = Some 10 /\
    enable a' = true /\
    silent_cookies a' = Some (dumps Scenario.cookies_ac) /\
    cache_free w' !! 8 = Some (Scenario.snapshot a').
Proof.
  split; [cbn; auto|]. split; [reflexivity|]. split; [reflexivity|].
  split; [reflexivity|]. cbv zeta.
  split; [vm_compute; reflexivity|]. split; [vm_compute; auto|].
  eexists. split; [vm_compute; reflexivity|].
  split; [reflexivity|]. split; [reflexivity|]. split; [reflexivity|].
  vm_compute. reflexivity.
Qed.
